(** * FFDNet training / inference driver ([Super_resolution/ffdnet.py])

    A shallow embedding of the driver script: argument post-processing in
    [main], the patch pipeline, the epoch / batch / noise-level loops of
    [train] and the per-file loop of [test].

    Conventions.
    - Python [int] is [Z]; Python [float] is the kernel's binary64 [float].
    - A numpy array / torch tensor is a nested list, channel first
      (C x W x H), a batch is a list of such images.
    - The script runs in a monad threading the part of the outside world it
      changes (checkpoint files, the global autograd switch, an event log)
      and an exception.  An exception leaves the effects performed so far in
      place, as in Python.
    - The torch, cv2, numpy and [utils] / [model] functions the script calls
      are parameters of the development ([Section Driver]).
    - Console output and wall-clock timing are not modelled.  Of device
      placement only the unconditional [model.cuda()] of [test] is: it
      fails where CUDA is not available; moving tensors between devices
      is not modelled. *)

From Stdlib Require Import ZArith List Lia Floats Ascii String.
From stdpp Require Import gmap strings list.

Local Open Scope string_scope.
Local Open Scope Z_scope.

(** ** Python exceptions raised by the script or by the libraries it calls *)

Inductive exn : Type :=
| AssertionError (msg : string)
| ValueError (msg : string)
| ZeroDivisionError
| OverflowError
| StopIteration
| IndexError
| FileNotFoundError (path : string)
| RuntimeError (msg : string)
| DecodeError (path : string)
| CudaError (msg : string)
| Exception_ (msg : string).

(** ** [range(start, stop, step)] *)

(** Number of elements of a range, as CPython computes it. *)
Definition range_len (start stop step : Z) : Z :=
  if 0 <? step then
    (if start <? stop then (stop - start - 1) / step + 1 else 0)
  else
    (if stop <? start then (start - stop - 1) / (- step) + 1 else 0).

(** [list(range(start, stop, step))]; a zero step is a [ValueError]. *)
Definition py_range (start stop step : Z) : exn + list Z :=
  if step =? 0 then inl (ValueError "range() arg 3 must not be zero")
  else inr (map (fun i : nat => start + Z.of_nat i * step)
                (seq 0 (Z.to_nat (range_len start stop step)))).

(** [list(range(n))] *)
Definition py_range1 (n : Z) : list Z :=
  map Z.of_nat (seq 0 (Z.to_nat n)).

(** ** Parsed command line ([argparse.Namespace]) *)

Record Args : Type := mkArgs {
  train_path : string;
  is_gray : bool;
  patch_size : Z;
  train_noise_interval : list Z;
  val_noise_interval : list Z;
  batch_size : Z;
  epoches : Z;
  val_epoch : Z;
  learning_rate : float;
  save_checkpoints : Z;
  test_path : string;
  noise_sigma : float;
  add_noise : bool;
  model_path : string;
  use_gpu : bool;
  is_train : bool;
  is_test : bool;
  cuda : bool
}.

(** The defaults declared with [parser.add_argument]; every [store_true]
    flag is [False]. *)
Definition default_args : Args := {|
  train_path := "./train_data/";
  is_gray := false;
  patch_size := 32;
  train_noise_interval := [0; 75; 15];
  val_noise_interval := [0; 60; 30];
  batch_size := 256;
  epoches := 80;
  val_epoch := 5;
  learning_rate := 0x1.0624dd2f1a9fcp-10%float;   (* 1e-3 *)
  save_checkpoints := 5;
  test_path := "./test_data/color.png";
  noise_sigma := 25%float;
  add_noise := false;
  model_path := "./models/";
  use_gpu := false;
  is_train := false;
  is_test := false;
  cuda := false
|}.

(** ** Arrays *)

(** An image is a C x W x H array of floats; a batch (4-D tensor) is a list
    of images. *)
Definition image : Type := list (list (list float)).
Definition tensor4 : Type := list image.

(** [a.shape] for a 3-D array: (C, W, H). *)
Definition shape3 (a : image) : Z * Z * Z :=
  (Z.of_nat (length a),
   Z.of_nat (length (hd [] a)),
   Z.of_nat (length (hd [] (hd [] a)))).

(** [a.shape] for a 4-D tensor: (N, C, W, H). *)
Definition shape4 (t : tensor4) : Z * Z * Z * Z :=
  let '(c, w, h) := shape3 (hd [] t) in (Z.of_nat (length t), c, w, h).

(** Rectangularity: every plane has [w] rows and every row [h] entries. *)
Definition rect3 (c w h : nat) (a : image) : bool :=
  (length a =? c)%nat &&
  forallb (fun plane => (length plane =? w)%nat &&
                        forallb (fun row => (length row =? h)%nat) plane) a.

Definition rect4 (n c w h : nat) (t : tensor4) : bool :=
  (length t =? n)%nat && forallb (rect3 c w h) t.

(** [np.concatenate((image, image[:, -1, :][:, np.newaxis, :]), axis=1)]:
    every channel gets its last row once more. *)
Definition dup_last {A} (l : list A) : list A :=
  match last l with Some x => (l ++ [x])%list | None => l end.

Definition expand_W (a : image) : image := map dup_last a.

(** [np.concatenate((image, image[:, :, -1][:, :, np.newaxis]), axis=2)]:
    every row gets its last entry once more. *)
Definition expand_H (a : image) : image := map (map dup_last) a.

(** [t[:, :, :-1, :]] and [t[:, :, :, :-1]] *)
Definition unexpand_W (t : tensor4) : tensor4 :=
  map (map (fun plane => removelast plane)) t.
Definition unexpand_H (t : tensor4) : tensor4 :=
  map (map (map (fun row => removelast row))) t.

(** ** Strings *)

(** [s.replace(c, '')] for a one-character [c]. *)
Fixpoint remove_char (c : ascii) (s : string) : string :=
  match s with
  | EmptyString => EmptyString
  | String a s' => if Ascii.eqb a c then remove_char c s'
                   else String a (remove_char c s')
  end.

Definition apostrophe : ascii := ascii_of_nat 39.
Definition double_quote : ascii := ascii_of_nat 34.

Fixpoint ends_with_slash (s : string) : bool :=
  match s with
  | EmptyString => false
  | String a EmptyString => Ascii.eqb a "/"%char
  | String _ s' => ends_with_slash s'
  end.

(** [os.path.join(a, b)] for a directory entry [b] (no leading slash). *)
Definition os_path_join (a b : string) : string :=
  match a with
  | EmptyString => b
  | _ => if ends_with_slash a then a +:+ b else a +:+ "/" +:+ b
  end.

(** ** The libraries behind the script *)

(** What the script takes from torch, cv2, numpy, [os], [utils] and [model].
    Random choices (noise samples, shuffling, weight initialisation) are
    fixed by the instance. *)
Class Extern : Type := {
  (** learnable parameters, module buffers, gradients, optimizer state *)
  params : Type;
  buffers : Type;
  grads : Type;
  opt_state : Type;
  (** what [cv2.imread] returns *)
  raw_image : Type;
  (** [next(os.walk(d))[2]]; [None] when [d] is not a directory *)
  os_walk_files : string -> option (list string);
  (** [os.listdir(d)]; [None] when [d] is not a directory *)
  os_listdir : string -> option (list string);
  (** [cv2.imread(path, flag)], the flag being [IMREAD_GRAYSCALE] or the
      default; [None] for a file that does not decode *)
  cv2_imread : string -> bool -> option raw_image;
  (** channel-first layout followed by [utils.normalize] *)
  to_chw : bool -> raw_image -> image;
  (** [utils.image_to_patches(image, patch_size=p)] *)
  image_to_patches : image -> Z -> list image;
  (** the batches [DataLoader(dataset, batch_size, shuffle)] yields *)
  DataLoader : list image -> Z -> bool -> list tensor4;
  (** [utils.add_batch_noise(batch, sigma)] *)
  add_batch_noise : tensor4 -> float -> tensor4;
  (** [FFDNet(is_gray=g)] and [model.apply(utils.weights_init_kaiming)] *)
  FFDNet : bool -> params * buffers;
  weights_init_kaiming : params * buffers -> params * buffers;
  (** [model.load_state_dict(d)] on a fresh [FFDNet(is_gray=g)]; [None] on
      a shape mismatch *)
  load_state_dict : bool -> params * buffers -> option (params * buffers);
  (** the forward pass: parameters, buffers, training flag, input, noise
      levels; it returns the prediction and the buffers it leaves *)
  forward : params -> buffers -> bool -> tensor4 -> list float ->
            tensor4 * buffers;
  (** [loss_fn(pred, target).backward()] after [optimizer.zero_grad()] *)
  backward : params -> buffers -> tensor4 -> list float -> tensor4 -> grads;
  (** [optim.Adam(model.parameters(), lr)] and [optimizer.step()] *)
  Adam : params -> float -> opt_state;
  optimizer_step : opt_state -> params -> grads -> opt_state * params;
  (** [torch.FloatTensor(l)]: the entries stored in single precision *)
  FloatTensor : list float -> list float;
  (** [torch.cuda.is_available()] *)
  cuda_available : bool
}.

(** ** Effects *)

Inductive phase : Type :=
| Training (epoch_idx : Z)
| Validation (epoch_idx : Z)
| Inference.

Inductive event : Type :=
| EvForward (ph : phase) (training grad : bool) (sigma : list float)
| EvOptimStep (epoch_idx : Z)
| EvSave (path : string)
| EvLoad (path : string)
| EvImwrite (path : string) (data : tensor4).

Section Driver.
Context `{E : Extern}.

(** [model.state_dict()] *)
Definition state_dict : Type := (params * buffers)%type.

(** The outside world the script changes. *)
Record world : Type := mkWorld {
  files : gmap string state_dict;   (* checkpoint files on disk *)
  grad_enabled : bool;              (* torch's global autograd switch *)
  trace : list event
}.

(** A fresh process: autograd is on, nothing has happened yet. *)
Definition initial_world (fs : gmap string state_dict) : world :=
  {| files := fs; grad_enabled := true; trace := [] |}.

Definition M (A : Type) : Type := world -> (exn + A) * world.

Definition ret {A} (a : A) : M A := fun w => (inr a, w).
Definition raise {A} (e : exn) : M A := fun w => (inl e, w).
Definition bind {A B} (m : M A) (k : A -> M B) : M B :=
  fun w => match m w with
           | (inr a, w') => k a w'
           | (inl e, w') => (inl e, w')
           end.

#[export] Instance M_ret : MRet M := @ret.
#[export] Instance M_bind : MBind M := fun A B k m => bind m k.

Definition lift {A} (r : exn + A) : M A := fun w => (r, w).
Definition emit (ev : event) : M unit :=
  fun w => (inr tt, {| files := files w; grad_enabled := grad_enabled w;
                       trace := (trace w ++ [ev])%list |}).

(** [for x in l: s = body(x, s)] with the loop-carried locals [s]. *)
Fixpoint for_each {A S} (l : list A) (body : A -> S -> M S) (s : S) : M S :=
  match l with
  | [] => ret s
  | x :: l' => s' ← body x s; for_each l' body s'
  end.

(** [with torch.no_grad(): m] *)
Definition with_no_grad {A} (m : M A) : M A :=
  fun w =>
    let saved := grad_enabled w in
    let '(r, w') := m {| files := files w; grad_enabled := false;
                         trace := trace w |} in
    (r, {| files := files w'; grad_enabled := saved; trace := trace w' |}).

(** [torch.save(d, path)] and [torch.load(path)] *)
Definition torch_save (d : state_dict) (path : string) : M unit :=
  fun w => (inr tt, {| files := <[path := d]> (files w);
                       grad_enabled := grad_enabled w;
                       trace := (trace w ++ [EvSave path])%list |}).

Definition torch_load (path : string) : M state_dict :=
  fun w => match files w !! path with
           | Some d => (inr d, {| files := files w;
                                  grad_enabled := grad_enabled w;
                                  trace := (trace w ++ [EvLoad path])%list |})
           | None => (inl (FileNotFoundError path), w)
           end.

(** ** The network object *)

Record module : Type := mkModule {
  m_params : params;
  m_buffers : buffers;
  training : bool
}.

(** [model.train()] / [model.eval()] *)
Definition model_train (m : module) : module :=
  {| m_params := m_params m; m_buffers := m_buffers m; training := true |}.
Definition model_eval (m : module) : module :=
  {| m_params := m_params m; m_buffers := m_buffers m; training := false |}.

Definition model_state_dict (m : module) : state_dict :=
  (m_params m, m_buffers m).

(** [model(x, sigma)]: the forward pass runs in the module's current mode
    under the current autograd switch. *)
Definition call_model (ph : phase) (m : module) (x : tensor4)
    (sigma : list float) : M (tensor4 * module) :=
  fun w =>
    let '(y, b) := forward (m_params m) (m_buffers m) (training m) x sigma in
    (inr (y, {| m_params := m_params m; m_buffers := b;
                training := training m |}),
     {| files := files w; grad_enabled := grad_enabled w;
        trace := (trace w ++ [EvForward ph (training m) (grad_enabled w) sigma])%list |}).

(** ** Data pipeline *)

Definition read_image (image_path : string) (gray : bool) : M image :=
  match cv2_imread image_path gray with
  | Some raw => ret (to_chw gray raw)
  | None => raise (DecodeError image_path)
  end.

Definition load_images (train_set gray : bool) (base_path : string)
    : M (list image) :=
  let train_dir := if gray then "gray/train/" else "rgb/train/" in
  let val_dir := if gray then "gray/val/" else "rgb/val/" in
  let image_dir :=
    remove_char double_quote (remove_char apostrophe base_path)
    +:+ (if train_set then train_dir else val_dir) in
  match os_walk_files image_dir with
  | None => raise StopIteration
  | Some fns =>
      for_each fns
        (fun fn images => img ← read_image (image_dir +:+ fn) gray;
                          ret (images ++ [img])%list)
        []
  end.

(** [np.vstack(l)] *)
Definition np_vstack (l : list (list image)) : M (list image) :=
  match l with
  | [] => raise (ValueError "need at least one array to concatenate")
  | _ => ret (concat l)
  end.

Definition images_to_patches (images : list image) (patch_size : Z)
    : M (list image) :=
  let patches_list :=
    fold_left
      (fun patches_list img =>
         let patches := image_to_patches img patch_size in
         if negb (length patches =? 0)%nat then (patches_list ++ [patches])%list
         else patches_list)
      images [] in
  np_vstack patches_list.

(** [list(range(iv[0], iv[1], iv[2]))] *)
Definition noise_list (iv : list Z) : M (list Z) :=
  match iv !! 0%nat, iv !! 1%nat, iv !! 2%nat with
  | Some a, Some b, Some c => lift (py_range a b c)
  | _, _, _ => raise IndexError
  end.

(** [int_noise_sigma / 255]: true division of two Python ints is the
    quotient rounded once to binary64; a quotient beyond the largest float is
    an [OverflowError]. *)
Definition float_of_int (n : Z) : float :=
  SF2Prim (binary_normalize prec emax n 0 false).

Definition int_truediv_255 (n : Z) : exn + float :=
  if n =? 0 then inr 0%float
  else
    let '(mz, ez, lz) := SFdiv_core_binary prec emax (Z.abs n) 0 255 0 in
    match binary_round_aux prec emax (n <? 0) mz ez lz with
    | S754_infinity _ => inl OverflowError
    | r => inr (SF2Prim r)
    end.

(** [args.model_path + ('net_gray.pth' if g else 'net_rgb.pth')] *)
Definition checkpoint_path (args : Args) (gray : bool) : string :=
  model_path args +:+ (if gray then "net_gray.pth" else "net_rgb.pth").

(** ** Training *)

Section Train.
Variable args : Args.
Variables train_dataloader val_dataloader : list tensor4.
Variables train_noises val_noises : list Z.

(** Loop-carried locals of an epoch: the network, the optimizer, [loss_idx]. *)
Definition train_locals : Type := (module * opt_state * Z)%type.

(** Body of [for int_noise_sigma in train_noises] (lines 115-133). *)
Definition train_step (epoch_idx : Z) (batch_data : tensor4)
    (int_noise_sigma : Z) (s : train_locals) : M train_locals :=
  let '(model, optimizer, loss_idx) := s in
  noise_sigma ← lift (int_truediv_255 int_noise_sigma);
  let new_images := add_batch_noise batch_data noise_sigma in
  let noise_sigma := FloatTensor (map (fun _ => noise_sigma) new_images) in
  '(images_pred, model') ← call_model (Training epoch_idx) model new_images noise_sigma;
  let g := backward (m_params model) (m_buffers model) new_images noise_sigma
             batch_data in
  let '(optimizer', p') := optimizer_step optimizer (m_params model') g in
  _ ← emit (EvOptimStep epoch_idx);
  ret ({| m_params := p'; m_buffers := m_buffers model';
          training := training model' |}, optimizer', loss_idx + 1).

(** Body of [for int_noise_sigma in val_noises] (lines 170-184); the locals
    are the network and [loss_idx]. *)
Definition val_step (epoch_idx : Z) (batch_data : tensor4)
    (int_noise_sigma : Z) (s : module * Z) : M (module * Z) :=
  let '(model, loss_idx) := s in
  noise_sigma ← lift (int_truediv_255 int_noise_sigma);
  let new_images := add_batch_noise batch_data noise_sigma in
  let noise_sigma := FloatTensor (map (fun _ => noise_sigma) new_images) in
  '(images_pred, model') ← call_model (Validation epoch_idx) model new_images noise_sigma;
  ret (model', loss_idx + 1).

(** [x /= loss_idx] on the running loss. *)
Definition div_by_loss_idx (loss_idx : Z) : M unit :=
  if loss_idx =? 0 then raise ZeroDivisionError else ret tt.

(** The validation loop of one epoch (lines 167-203). *)
Definition validate (epoch_idx : Z) (model : module) : M module :=
  '(model, loss_idx) ←
    for_each val_dataloader
      (fun batch_data s => for_each val_noises (val_step epoch_idx batch_data) s)
      (model, 0);
  _ ← div_by_loss_idx loss_idx;
  ret model.

(** Body of [for epoch_idx in range(args.epoches)] (lines 107-203). *)
Definition epoch_body (epoch_idx : Z) (s : module * opt_state)
    : M (module * opt_state) :=
  let '(model, optimizer) := s in
  let model := model_train model in
  '(model, optimizer, loss_idx) ←
    for_each train_dataloader
      (fun batch_data s =>
         for_each train_noises (train_step epoch_idx batch_data) s)
      (model, optimizer, 0);
  _ ← div_by_loss_idx loss_idx;
  if (epoch_idx + 1) mod 5 =? 0 then
    _ ← torch_save (model_state_dict model) (checkpoint_path args (is_gray args));
    model ← validate epoch_idx model;
    ret (model, optimizer)
  else
    ret (model, optimizer).

Definition epoch_loop (s : module * opt_state) : M (module * opt_state) :=
  for_each (py_range1 (epoches args)) epoch_body s.

(** Lines 205-208. *)
Definition final_save (model : module) : M unit :=
  let model := model_eval model in
  torch_save (model_state_dict model) (checkpoint_path args (is_gray args)).

End Train.

(** What [train] has built when the epoch loop starts (lines 66-103): the
    two data loaders, the two noise lists, the network and the optimizer. *)
Record train_ctx : Type := mkCtx {
  ctx_train_dataloader : list tensor4;
  ctx_val_dataloader : list tensor4;
  ctx_train_noises : list Z;
  ctx_val_noises : list Z;
  ctx_model : module;
  ctx_optimizer : opt_state
}.

Definition train_setup (args : Args) : M train_ctx :=
  train_dataset ← load_images true (is_gray args) (train_path args);
  val_dataset ← load_images false (is_gray args) (train_path args);
  train_dataset ← images_to_patches train_dataset (patch_size args);
  val_dataset ← images_to_patches val_dataset (patch_size args);
  let train_dataloader := DataLoader train_dataset (batch_size args) true in
  let val_dataloader := DataLoader val_dataset (batch_size args) false in
  train_noises ← noise_list (train_noise_interval args);
  val_noises ← noise_list (val_noise_interval args);
  let '(p, b) := weights_init_kaiming (FFDNet (is_gray args)) in
  let model := {| m_params := p; m_buffers := b; training := true |} in
  let optimizer := Adam (m_params model) (learning_rate args) in
  ret {| ctx_train_dataloader := train_dataloader;
         ctx_val_dataloader := val_dataloader;
         ctx_train_noises := train_noises;
         ctx_val_noises := val_noises;
         ctx_model := model;
         ctx_optimizer := optimizer |}.

Definition train_epochs (args : Args) (c : train_ctx) : M (module * opt_state) :=
  epoch_loop args (ctx_train_dataloader c) (ctx_val_dataloader c)
    (ctx_train_noises c) (ctx_val_noises c) (ctx_model c, ctx_optimizer c).

Definition train (args : Args) : M unit :=
  c ← train_setup args;
  '(model, _) ← train_epochs args c;
  final_save args model.

(** ** Inference *)

(** Lines 233-269: pad odd dimensions, run the network without gradient
    tracking, crop the padding.  Returns the prediction, the network input
    and the network. *)
Definition denoise (args : Args) (model : module) (img : image)
    : M (tensor4 * tensor4 * module) :=
  let expend_W := negb (snd (fst (shape3 img)) mod 2 =? 0) in
  let img := if expend_W then expand_W img else img in
  let expend_H := negb (snd (shape3 img) mod 2 =? 0) in
  let img := if expend_H then expand_H img else img in
  let batch := [img] in
  let batch := if add_noise args then add_batch_noise batch (noise_sigma args)
               else batch in
  let sigma := FloatTensor [noise_sigma args] in
  '(image_pred, model) ← with_no_grad (call_model Inference model batch sigma);
  let image_pred := if expend_W then unexpand_W image_pred else image_pred in
  let image_pred := if expend_H then unexpand_H image_pred else image_pred in
  ret (image_pred, batch, model).

(** [cv2.imwrite(path, utils.variable_to_cv2_image(t))] *)
Definition cv2_imwrite (path : string) (t : tensor4) : M unit :=
  emit (EvImwrite path t).

Definition output_path (image_name : string) : string :=
  "./outputs/" +:+ image_name +:+ ".png".

(** Body of [for image_name in images] (lines 226-274). *)
Definition test_image (args : Args) (gray : bool) (image_name : string)
    (model : module) : M module :=
  let image_path := os_path_join (test_path args) image_name in
  match cv2_imread image_path false with
  | None => raise (Exception_ ("File " +:+ test_path args +:+ " not found or error"))
  | Some _ =>
      img ← read_image image_path gray;
      '(image_pred, noisy, model) ← denoise args model img;
      _ ← cv2_imwrite (output_path image_name) image_pred;
      _ ← (if add_noise args then cv2_imwrite "noisy.png" noisy else ret tt);
      ret model
  end.

(** [model.cuda()]: torch raises where CUDA cannot be initialised. *)
Definition model_cuda : M unit :=
  if cuda_available then ret tt
  else raise (CudaError "Torch not compiled with CUDA enabled").

Definition test (args : Args) : M unit :=
  let gray := true in
  let path := checkpoint_path args gray in
  d ← torch_load path;
  match load_state_dict gray d with
  | None => raise (RuntimeError "Error(s) in loading state_dict for FFDNet")
  | Some (p, b) =>
      _ ← model_cuda;
      let model := model_eval {| m_params := p; m_buffers := b; training := true |} in
      match os_listdir (test_path args) with
      | None => raise (FileNotFoundError (test_path args))
      | Some images =>
          _ ← for_each images (test_image args gray) model;
          ret tt
      end
  end.

(** ** Entry point *)

(** [iv[1] += 1] *)
Definition incr_upper (iv : list Z) : M (list Z) :=
  match iv !! 1%nat with
  | Some hi => ret (<[1%nat := hi + 1]> iv)
  | None => raise IndexError
  end.

(** [args.noise_sigma /= 255] *)
Definition normalize_sigma (sigma : float) : float := (sigma / 255)%float.

Definition assertion_message : string :=
  "is_train 和 is_test 至少有一个为 True".

Definition main (args : Args) : M unit :=
  _ ← (if is_train args || is_test args then ret tt
       else raise (AssertionError assertion_message));
  tni ← incr_upper (train_noise_interval args);
  vni ← incr_upper (val_noise_interval args);
  let args := {|
    train_path := train_path args;
    is_gray := is_gray args;
    patch_size := patch_size args;
    train_noise_interval := tni;
    val_noise_interval := vni;
    batch_size := batch_size args;
    epoches := epoches args;
    val_epoch := val_epoch args;
    learning_rate := learning_rate args;
    save_checkpoints := save_checkpoints args;
    test_path := test_path args;
    noise_sigma := normalize_sigma (noise_sigma args);
    add_noise := add_noise args;
    model_path := model_path args;
    use_gpu := use_gpu args;
    is_train := is_train args;
    is_test := is_test args;
    cuda := use_gpu args && cuda_available
  |} in
  _ ← (if is_train args then train args else ret tt);
  if is_test args then test args else ret tt.

(** The noise levels [train] enumerates for a configured interval: [main]
    raises the upper bound by one (line 313), [train] builds the range
    (lines 86-88). *)
Definition enumerated_noises (iv : list Z) : M (list Z) :=
  iv' ← incr_upper iv; noise_list iv'.

End Driver.

(** ** A small concrete instance of the libraries

    One 1 x 3 x 3 image per directory, one patch per image, one batch per
    data set; the "network" is the identity, its parameters count the
    optimizer steps and its buffers the training-mode forward passes. *)
Module Demo.

Definition pic : image :=
  [[[0.5; 0.25; 0]; [1; 0.5; 0.25]; [0; 0.75; 1]]]%float.

#[export] Instance demo_extern : Extern := {|
  params := Z;
  buffers := Z;
  grads := unit;
  opt_state := Z;
  raw_image := image;
  os_walk_files := fun _ => Some ["a.png"];
  os_listdir := fun _ => Some ["a.png"; "b.jpg"];
  cv2_imread := fun _ _ => Some pic;
  to_chw := fun _ raw => raw;
  image_to_patches := fun img _ => [img];
  DataLoader := fun ds _ _ => [ds];
  add_batch_noise := fun t _ => t;
  FFDNet := fun _ => (0, 0);
  weights_init_kaiming := fun d => d;
  load_state_dict := fun _ d => Some d;
  forward := fun _ b tr x _ => (x, if tr then b + 1 else b);
  backward := fun _ _ _ _ _ => tt;
  Adam := fun _ _ => 0;
  optimizer_step := fun o p _ => (o + 1, p + 1);
  FloatTensor := fun l => l;
  cuda_available := true
|}.

Definition with_flags (a : Args) (gray tr te : bool) (n k : Z) : Args := {|
  train_path := train_path a;
  is_gray := gray;
  patch_size := patch_size a;
  train_noise_interval := train_noise_interval a;
  val_noise_interval := val_noise_interval a;
  batch_size := batch_size a;
  epoches := n;
  val_epoch := k;
  learning_rate := learning_rate a;
  save_checkpoints := save_checkpoints a;
  test_path := test_path a;
  noise_sigma := noise_sigma a;
  add_noise := add_noise a;
  model_path := model_path a;
  use_gpu := use_gpu a;
  is_train := tr;
  is_test := te;
  cuda := cuda a
|}.

End Demo.


(** * Properties *)

(** ** Sanity checks of the array and range helpers *)

Example py_range_ex1 : py_range 0 10 3 = inr [0; 3; 6; 9].
Proof. reflexivity. Qed.

Example py_range_ex2 : py_range 10 0 (-4) = inr [10; 6; 2].
Proof. reflexivity. Qed.

Example py_range_ex3 : py_range 5 5 1 = inr [].
Proof. reflexivity. Qed.

Example expand_W_ex : expand_W [[[1; 2]; [3; 4]; [5; 6]]]%float
                      = [[[1; 2]; [3; 4]; [5; 6]; [5; 6]]]%float.
Proof. reflexivity. Qed.

Example expand_H_ex : expand_H [[[1; 2; 3]; [4; 5; 6]]]%float
                      = [[[1; 2; 3; 3]; [4; 5; 6; 6]]]%float.
Proof. reflexivity. Qed.

Example os_path_join_ex : os_path_join "./test_data" "a.jpg" = "./test_data/a.jpg"
                          /\ os_path_join "./test_data/" "a.jpg" = "./test_data/a.jpg".
Proof. split; reflexivity. Qed.


(** ** Noise levels *)

Section NoiseLevels.
Context `{E : Extern}.

(** C1 (as amended): for the configured training interval [[0, 75, 15]] the
    adjusted range is [range(0, 76, 15)], so the enumerated training noise
    levels are exactly 0, 15, 30, 45, 60 and 75. *)
Theorem C1_default_train_noise_levels (w : world) :
  enumerated_noises (train_noise_interval default_args) w
  = (inr [0; 15; 30; 45; 60; 75], w).
Proof. reflexivity. Qed.

End NoiseLevels.

(** C1 (as stated) fails: the level 75 is enumerated as well, so the set of
    levels is not {0, 15, 30, 45, 60}. *)
Lemma C1_levels_counterexample :
  ~ (exists l : list Z,
        fst (enumerated_noises (train_noise_interval default_args)
               (initial_world (E := Demo.demo_extern) ∅)) = inr l
        /\ (forall x : Z, In x l <-> In x [0; 15; 30; 45; 60])).
Proof.
  intros (l & Hl & Hset).
  cbn in Hl. injection Hl as <-.
  assert (H75 : In 75 [0; 15; 30; 45; 60]) by (apply Hset; cbn; tauto).
  cbn in H75. intuition discriminate.
Qed.

(** ** A program logic for the driver monad *)

Section Logic.
Context `{E : Extern}.

(** [triple P X m Q]: from any world, [m] only appends events that satisfy
    [P] (which may depend on the autograd switch [m] was started under),
    leaves the autograd switch as it found it, raises only exceptions in
    [X], and returns only values in [Q]. *)
Definition triple {A} (P : bool -> event -> Prop) (X : exn -> Prop)
    (m : M A) (Q : A -> Prop) : Prop :=
  forall w, exists evs,
    trace (snd (m w)) = (trace w ++ evs)%list /\
    Forall (P (grad_enabled w)) evs /\
    grad_enabled (snd (m w)) = grad_enabled w /\
    match fst (m w) with inl e => X e | inr a => Q a end.

Variable P : bool -> event -> Prop.
Variable X : exn -> Prop.

Lemma triple_ret {A} (a : A) (Q : A -> Prop) : Q a -> triple P X (ret a) Q.
Proof.
  intros Ha w. exists []. cbn. rewrite app_nil_r. auto.
Qed.

Lemma triple_mret {A} (a : A) (Q : A -> Prop) : Q a -> triple P X (mret a) Q.
Proof. apply triple_ret. Qed.

Lemma triple_raise {A} (e : exn) (Q : A -> Prop) : X e -> triple P X (raise e) Q.
Proof.
  intros He w. exists []. cbn. rewrite app_nil_r. auto.
Qed.

Lemma triple_lift {A} (r : exn + A) (Q : A -> Prop) :
  match r with inl e => X e | inr a => Q a end -> triple P X (lift r) Q.
Proof.
  intros Hr w. exists []. cbn. rewrite app_nil_r. auto.
Qed.

Lemma triple_emit (ev : event) (Q : unit -> Prop) :
  (forall g, P g ev) -> Q tt -> triple P X (emit ev) Q.
Proof.
  intros Hev HQ w. exists [ev]. cbn. auto.
Qed.

Lemma triple_bind {A B} (m : M A) (k : A -> M B) (Q : A -> Prop) (R : B -> Prop) :
  triple P X m Q -> (forall a, Q a -> triple P X (k a) R) ->
  triple P X (m ≫= k) R.
Proof.
  intros Hm Hk w. unfold mbind, M_bind, bind.
  destruct (Hm w) as (evs1 & Ht1 & Hp1 & Hg1 & Hr1).
  destruct (m w) as [[e | a] w1]; cbn in *.
  - exists evs1. auto.
  - destruct (Hk a Hr1 w1) as (evs2 & Ht2 & Hp2 & Hg2 & Hr2).
    exists (evs1 ++ evs2)%list. rewrite Ht2, Ht1, Hg2, Hg1, app_assoc.
    repeat split; auto.
    apply Forall_app. split; auto. now rewrite <- Hg1.
Qed.

Lemma triple_weaken {A} (m : M A) (Q Q' : A -> Prop) :
  triple P X m Q -> (forall a, Q a -> Q' a) -> triple P X m Q'.
Proof.
  intros Hm HQ w. destruct (Hm w) as (evs & Ht & Hp & Hg & Hr).
  exists evs. repeat split; auto. destruct (fst (m w)); auto.
Qed.

(** A loop keeps an invariant of its loop-carried locals. *)
Lemma triple_for_each {A S} (l : list A) (body : A -> S -> M S)
    (I : S -> Prop) (s : S) :
  (forall x s, I s -> triple P X (body x s) I) -> I s ->
  triple P X (for_each l body s) I.
Proof.
  intros Hbody. revert s. induction l as [| x l IH]; intros s Hs; cbn.
  - now apply triple_ret.
  - eapply triple_bind; [apply Hbody, Hs | intros s' Hs'; now apply IH].
Qed.

Lemma triple_torch_save (d : state_dict) (path : string) (Q : unit -> Prop) :
  (forall g, P g (EvSave path)) -> Q tt -> triple P X (torch_save d path) Q.
Proof.
  intros Hev HQ w. exists [EvSave path]. cbn. auto.
Qed.

Lemma triple_torch_load (path : string) (Q : state_dict -> Prop) :
  (forall g, P g (EvLoad path)) -> X (FileNotFoundError path) ->
  (forall d, Q d) -> triple P X (torch_load path) Q.
Proof.
  intros Hev HX HQ w. unfold torch_load.
  destruct (files w !! path) as [d |]; cbn.
  - exists [EvLoad path]. auto.
  - exists []. rewrite app_nil_r. auto.
Qed.

(** A forward pass logs the mode of the network and the autograd switch;
    it changes neither the parameters nor the mode. *)
Lemma triple_call_model (ph : phase) (m : module) (x : tensor4)
    (sigma : list float) (Q : tensor4 * module -> Prop) :
  (forall g, P g (EvForward ph (training m) g sigma)) ->
  (forall y m', m_params m' = m_params m -> training m' = training m -> Q (y, m')) ->
  triple P X (call_model ph m x sigma) Q.
Proof.
  intros Hev HQ w. unfold call_model.
  destruct (forward _ _ _ _ _) as [y b]. cbn.
  exists [EvForward ph (training m) (grad_enabled w) sigma]. auto.
Qed.

End Logic.

Section LogicNoGrad.
Context `{E : Extern}.

(** Inside [with torch.no_grad()] the body runs with the switch off, and
    the switch is restored afterwards. *)
Lemma triple_with_no_grad {A} (P P' : bool -> event -> Prop) (X : exn -> Prop)
    (m : M A) (Q : A -> Prop) :
  triple P' X m Q -> (forall g ev, P' false ev -> P g ev) ->
  triple P X (with_no_grad m) Q.
Proof.
  intros Hm HP w. unfold with_no_grad.
  destruct (Hm {| files := files w; grad_enabled := false; trace := trace w |})
    as (evs & Ht & Hp & Hg & Hr).
  destruct (m _) as [r w']. cbn in *.
  exists evs. repeat split; auto.
  eapply Forall_impl; [apply Hp | intros ev; apply HP].
Qed.

End LogicNoGrad.

(** Splits a sequence [x ← m; k], not tracking the value of [m]. *)
Ltac triple_seq :=
  eapply triple_bind with (Q := fun _ => True); [ | intros ? _ ].

Ltac triple_leaf :=
  first [ apply triple_ret | apply triple_mret | apply triple_raise
        | apply triple_lift | apply triple_emit | apply triple_torch_save
        | apply triple_torch_load ].

(** ** The training loop *)

Section TrainFacts.
Context `{E : Extern}.
Variable args : Args.
Variables tdl vdl : list tensor4.
Variables tn vn : list Z.

(** Forward passes of the validation loop that ran in training mode with
    gradient tracking on. *)
Definition val_forward_training (g : bool) (ev : event) : Prop :=
  match ev with
  | EvForward (Validation _) tr gr _ => g = true -> tr = true /\ gr = true
  | _ => True
  end.

(** No checkpoint save and no validation forward pass. *)
Definition training_only (_ : bool) (ev : event) : Prop :=
  match ev with
  | EvSave _ | EvForward (Validation _) _ _ _ => False
  | _ => True
  end.

(** Every exception but the [assert] of [main]. *)
Definition not_assertion (e : exn) : Prop :=
  match e with AssertionError _ => False | _ => True end.

Lemma int_truediv_255_exn n :
  match int_truediv_255 n with inl e => not_assertion e | inr _ => True end.
Proof.
  unfold int_truediv_255. destruct (n =? 0); [exact I |].
  destruct (SFdiv_core_binary _ _ _ _ _ _) as [[mz ez] lz].
  now destruct (binary_round_aux _ _ _ _ _ _).
Qed.

Lemma train_step_triple (P : bool -> event -> Prop) epoch_idx batch n s :
  (forall g tr sg, P g (EvForward (Training epoch_idx) tr g sg)) ->
  (forall g, P g (EvOptimStep epoch_idx)) ->
  triple P not_assertion (train_step epoch_idx batch n s)
         (fun s' => training (fst (fst s')) = training (fst (fst s))).
Proof.
  intros Hf Ho. destruct s as [[model opt] li]. unfold train_step.
  triple_seq. { apply triple_lift. apply int_truediv_255_exn. }
  eapply triple_bind.
  { apply triple_call_model with
      (Q := fun r => training (snd r) = training model); auto. }
  intros [y model'] Hm. cbn in Hm.
  destruct (optimizer_step _ _ _) as [opt' p'].
  triple_seq. { apply triple_emit; auto. }
  apply triple_ret. cbn. exact Hm.
Qed.

Lemma val_step_triple (P : bool -> event -> Prop) epoch_idx batch n s :
  (forall g sg, P g (EvForward (Validation epoch_idx) (training (fst s)) g sg)) ->
  triple P not_assertion (val_step epoch_idx batch n s)
         (fun s' => m_params (fst s') = m_params (fst s) /\
                    training (fst s') = training (fst s)).
Proof.
  intros Hf. destruct s as [model li]. unfold val_step.
  triple_seq. { apply triple_lift. apply int_truediv_255_exn. }
  eapply triple_bind.
  { apply triple_call_model with
      (Q := fun r => m_params (snd r) = m_params model /\
                     training (snd r) = training model); auto. }
  intros [y model'] Hm. apply triple_ret. exact Hm.
Qed.

(** The validation loop leaves the parameters and the mode of the network
    as they were: it contains no optimizer step. *)
Lemma validate_triple (P : bool -> event -> Prop) epoch_idx model :
  (forall g sg, P g (EvForward (Validation epoch_idx) (training model) g sg)) ->
  triple P not_assertion (validate vdl vn epoch_idx model)
         (fun model' => m_params model' = m_params model /\
                        training model' = training model).
Proof.
  intros Hf. unfold validate.
  eapply triple_bind.
  { apply triple_for_each with
      (I := fun s : module * Z => m_params (fst s) = m_params model /\
                                  training (fst s) = training model);
      [| now split].
    intros batch s Hs.
    apply triple_for_each; [| exact Hs].
    intros n s' [Hp' Ht'].
    eapply triple_weaken.
    - apply val_step_triple. intros g sg. rewrite Ht'. apply Hf.
    - cbn. intros s'' [-> ->]. now split. }
  intros [model' li] Hm. cbn in Hm.
  triple_seq.
  { unfold div_by_loss_idx. destruct (li =? 0); now triple_leaf. }
  now apply triple_ret.
Qed.

Lemma epoch_body_triple (P : bool -> event -> Prop) epoch_idx s :
  (forall g tr sg, P g (EvForward (Training epoch_idx) tr g sg)) ->
  (forall g, P g (EvOptimStep epoch_idx)) ->
  ((epoch_idx + 1) mod 5 = 0 ->
   (forall g, P g (EvSave (checkpoint_path args (is_gray args)))) /\
   (forall g sg, P g (EvForward (Validation epoch_idx) true g sg))) ->
  triple P not_assertion (epoch_body args tdl vdl tn vn epoch_idx s)
         (fun _ => True).
Proof.
  intros Hf Ho Hv. destruct s as [model opt]. unfold epoch_body.
  eapply triple_bind with
    (Q := fun s : train_locals => training (fst (fst s)) = true).
  { apply triple_for_each; [| reflexivity].
    intros batch s Hs. apply triple_for_each; [| exact Hs].
    intros n s' Hs'. eapply triple_weaken.
    - now apply train_step_triple.
    - cbn. intros s'' ->. exact Hs'. }
  intros [[model' opt'] li] Hm. cbn in Hm.
  triple_seq.
  { unfold div_by_loss_idx. destruct (li =? 0); now triple_leaf. }
  destruct (Z.eqb_spec ((epoch_idx + 1) mod 5) 0) as [H5 | H5].
  - destruct (Hv H5) as [Hs Hvf].
    triple_seq. { now apply triple_torch_save. }
    eapply triple_bind.
    + apply validate_triple. intros g sg. rewrite Hm. apply Hvf.
    + intros model'' _. now apply triple_ret.
  - now apply triple_ret.
Qed.

(** C2 (what the code does): every forward pass of the validation loop runs
    with the network in training mode and with gradient tracking on;
    [model.train()] opens each epoch and nothing switches the mode or the
    autograd switch before the validation loop. *)
Theorem C2_validation_forward_in_training_mode epoch_idx s w :
  grad_enabled w = true ->
  exists evs,
    trace (snd (epoch_body args tdl vdl tn vn epoch_idx s w)) = (trace w ++ evs)%list /\
    forall e tr gr sg,
      In (EvForward (Validation e) tr gr sg) evs -> tr = true /\ gr = true.
Proof.
  intros Hg.
  destruct (epoch_body_triple val_forward_training epoch_idx s) with (w := w)
    as (evs & Ht & Hp & _); cbn; auto.
  exists evs. split; [exact Ht |].
  intros e tr gr sg Hin.
  rewrite List.Forall_forall in Hp. apply (Hp _ Hin), Hg.
Qed.

(** C4 (what the code does): an epoch whose 1-based index is not a multiple
    of 5 saves no checkpoint and runs no validation forward pass, whatever
    [--val_epoch] is: [args.val_epoch] is never read. *)
Theorem C4_no_validation_unless_multiple_of_5 epoch_idx s w :
  (epoch_idx + 1) mod 5 <> 0 ->
  exists evs,
    trace (snd (epoch_body args tdl vdl tn vn epoch_idx s w)) = (trace w ++ evs)%list /\
    forall ev, In ev evs ->
      match ev with
      | EvSave _ | EvForward (Validation _) _ _ _ => False
      | _ => True
      end.
Proof.
  intros H5.
  destruct (epoch_body_triple training_only epoch_idx s) with (w := w)
    as (evs & Ht & Hp & _); cbn; auto.
  exists evs. split; [exact Ht |].
  intros ev Hin. rewrite List.Forall_forall in Hp. exact (Hp _ Hin).
Qed.

End TrainFacts.

(** ** Exceptions of the whole program *)

Section MainFacts.
Context `{E : Extern}.

Definition any_event (_ : bool) (_ : event) : Prop := True.

Local Abbreviation safe m := (triple any_event not_assertion m (fun _ => True)).

Lemma read_image_safe path gray : safe (read_image path gray).
Proof. unfold read_image. destruct (cv2_imread path gray); now triple_leaf. Qed.

Lemma load_images_safe tr gray base : safe (load_images tr gray base).
Proof.
  unfold load_images. destruct (os_walk_files _); [| now triple_leaf].
  apply triple_for_each; [| exact I].
  intros fn images _. triple_seq; [apply read_image_safe | now triple_leaf].
Qed.

Lemma images_to_patches_safe images p : safe (images_to_patches images p).
Proof.
  unfold images_to_patches, np_vstack. destruct (fold_left _ _ _); now triple_leaf.
Qed.

Lemma noise_list_safe iv : safe (noise_list iv).
Proof.
  unfold noise_list.
  destruct (iv !! 0%nat), (iv !! 1%nat), (iv !! 2%nat); try now triple_leaf.
  apply triple_lift. unfold py_range. now destruct (_ =? 0).
Qed.



Lemma denoise_safe args model img : safe (denoise args model img).
Proof.
  unfold denoise. triple_seq.
  - eapply triple_with_no_grad with (P' := any_event); [| easy].
    now apply triple_call_model.
  - destruct a as [y m']. now triple_leaf.
Qed.

Lemma test_image_safe args gray name model : safe (test_image args gray name model).
Proof.
  unfold test_image. destruct (cv2_imread _ false); [| now triple_leaf].
  triple_seq; [apply read_image_safe |].
  triple_seq; [apply denoise_safe |].
  destruct a0 as [[y noisy] m'].
  triple_seq; [now apply triple_emit |].
  triple_seq; [destruct (add_noise args); [now apply triple_emit | now triple_leaf] |].
  now triple_leaf.
Qed.



End MainFacts.

(** ** Patch pipeline *)

Section PatchFacts.
Context `{E : Extern}.

Definition nonempty {A} (l : list A) : bool := negb (length l =? 0)%nat.

Lemma patches_list_filter (images : list image) (p : Z) (acc : list (list image)) :
  fold_left
    (fun patches_list img =>
       let patches := image_to_patches img p in
       if negb (length patches =? 0)%nat then (patches_list ++ [patches])%list
       else patches_list)
    images acc
  = (acc ++ List.filter nonempty (map (fun img => image_to_patches img p) images))%list.
Proof.
  revert acc. induction images as [| img images IH]; intros acc; cbn.
  - now rewrite app_nil_r.
  - rewrite IH. unfold nonempty at 2.
    destruct (negb (length (image_to_patches img p) =? 0)%nat); [| reflexivity].
    now rewrite <- app_assoc.
Qed.

Lemma filter_nonempty_nil {A} (l : list (list A)) :
  List.filter nonempty l = [] <-> forallb (fun ps => (length ps =? 0)%nat) l = true.
Proof.
  induction l as [| ps l IH]; cbn; [tauto |].
  unfold nonempty at 1. destruct (length ps =? 0)%nat; cbn; [exact IH |].
  split; discriminate.
Qed.

(** C9: the patch arrays of images that yield no patch are left out of the
    stack; when that leaves nothing to stack (every image yields no patch, or
    there is no image) the call raises the [ValueError] of [np.vstack],
    otherwise it returns the remaining patches, in order. *)
Theorem C9_images_to_patches (images : list image) (p : Z) (w : world) :
  let patches := map (fun img => image_to_patches img p) images in
  if forallb (fun ps => (length ps =? 0)%nat) patches
  then images_to_patches images p w
       = (inl (ValueError "need at least one array to concatenate"), w)
  else images_to_patches images p w
       = (inr (concat (List.filter nonempty patches)), w).
Proof.
  cbn. unfold images_to_patches. rewrite patches_list_filter. cbn.
  destruct (forallb _ _) eqn:Hall.
  - apply filter_nonempty_nil in Hall. now rewrite Hall.
  - destruct (List.filter nonempty _) eqn:Hf; [| reflexivity].
    apply filter_nonempty_nil in Hf. congruence.
Qed.

End PatchFacts.

(** ** Checkpoints *)

Section CheckpointFacts.
Context `{E : Extern}.

Lemma append_inj_l (s t u : string) : s +:+ t = s +:+ u -> t = u.
Proof. induction s as [| a s IH]; cbn; [auto | intros [=]; auto]. Qed.

(** C10: once the epoch loop has finished, [train] ends with one more save
    of the network the loop left, to the checkpoint path of the active mode;
    nothing in it depends on the number of epochs. *)
Theorem C10_final_save (args : Args) (c : train_ctx) (w w0 w1 : world)
    (model : module) (opt : opt_state) :
  train_setup args w = (inr c, w0) ->
  train_epochs args c w0 = (inr (model, opt), w1) ->
  exists w2,
    train args w = (inr tt, w2) /\
    trace w2 = (trace w1 ++ [EvSave (checkpoint_path args (is_gray args))])%list /\
    files w2 = <[checkpoint_path args (is_gray args) :=
                   (m_params model, m_buffers model)]> (files w1) /\
    files w2 !! checkpoint_path args (is_gray args)
      = Some (m_params model, m_buffers model).
Proof.
  intros Hsetup Hloop.
  unfold train, mbind, M_bind, bind. rewrite Hsetup, Hloop. cbn.
  eexists. repeat split. apply lookup_insert_eq.
Qed.

(** C3 (what the code does): [test] sets [is_gray = True] itself and so
    always loads [net_gray.pth].  With [--is_gray] unset, training saves
    [net_rgb.pth] and inference still asks for [net_gray.pth]. *)
Theorem C3_test_ignores_gray_flag (args : Args) (w : world) (model : module) :
  is_gray args = false ->
  files w !! (model_path args +:+ "net_gray.pth") = None ->
  exists w',
    final_save args model w = (inr tt, w') /\
    files w' !! (model_path args +:+ "net_rgb.pth")
      = Some (m_params model, m_buffers model) /\
    test args w'
      = (inl (FileNotFoundError (model_path args +:+ "net_gray.pth")), w').
Proof.
  intros Hgray Hnone. unfold final_save, checkpoint_path. rewrite Hgray.
  eexists. split; [reflexivity |]. cbn. split; [apply lookup_insert_eq |].
  unfold test, mbind, M_bind, bind, torch_load, checkpoint_path. cbn.
  rewrite lookup_insert_ne, Hnone; [reflexivity |].
  intros Heq. apply append_inj_l in Heq. discriminate.
Qed.

End CheckpointFacts.

(** ** Shapes under padding and cropping *)

Section ShapeFacts.

(** The propositional reading of [rect3] and [rect4]. *)
Definition Rect3 (c w h : nat) (a : image) : Prop :=
  length a = c /\
  Forall (fun plane => length plane = w /\
                       Forall (fun row : list float => length row = h) plane) a.

Definition Rect4 (n c w h : nat) (t : tensor4) : Prop :=
  length t = n /\ Forall (Rect3 c w h) t.

Lemma forallb_Forall {A} (f : A -> bool) (l : list A) :
  forallb f l = true <-> Forall (fun x => f x = true) l.
Proof.
  induction l as [| x l IH]; cbn.
  - split; auto.
  - rewrite andb_true_iff, IH. split.
    + intros [Hx Hl]. now constructor.
    + intros H. inversion H; subst. auto.
Qed.

Lemma rect3_spec c w h a : rect3 c w h a = true <-> Rect3 c w h a.
Proof.
  unfold rect3, Rect3. rewrite andb_true_iff, Nat.eqb_eq, forallb_Forall.
  apply and_iff_compat_l. apply Forall_iff. intros plane.
  rewrite andb_true_iff, Nat.eqb_eq, forallb_Forall.
  apply and_iff_compat_l. apply Forall_iff. intros row. apply Nat.eqb_eq.
Qed.

Lemma rect4_spec n c w h t : rect4 n c w h t = true <-> Rect4 n c w h t.
Proof.
  unfold rect4, Rect4. rewrite andb_true_iff, Nat.eqb_eq, forallb_Forall.
  apply and_iff_compat_l. apply Forall_iff. intros a. apply rect3_spec.
Qed.

Lemma dup_last_length {A} (l : list A) :
  (0 < length l)%nat -> length (dup_last l) = S (length l).
Proof.
  unfold dup_last. destruct (last l) as [x |] eqn:Hlast.
  - intros _. rewrite length_app. cbn. lia.
  - apply last_None in Hlast. subst. cbn. lia.
Qed.

Lemma dup_last_Forall {A} (Q : A -> Prop) (l : list A) :
  Forall Q l -> Forall Q (dup_last l).
Proof.
  intros Hl. unfold dup_last. destruct (last l) as [x |] eqn:Hlast; [| exact Hl].
  apply Forall_app. split; [exact Hl |]. constructor; [| constructor].
  apply last_Some in Hlast as [l' ->].
  apply Forall_app in Hl as [_ Hx]. now inversion Hx.
Qed.

Lemma removelast_length {A} (l : list A) :
  length (removelast l) = pred (length l).
Proof.
  induction l as [| x [| y l] IH]; cbn in *; auto.
Qed.

Lemma removelast_Forall {A} (Q : A -> Prop) (l : list A) :
  Forall Q l -> Forall Q (removelast l).
Proof.
  induction l as [| x [| y l] IH]; intros Hl; cbn; auto.
  inversion Hl; subst. constructor; auto.
Qed.

Lemma expand_W_rect c w h a :
  (0 < w)%nat -> Rect3 c w h a -> Rect3 c (S w) h (expand_W a).
Proof.
  intros Hw [Hc Ha]. split; [unfold expand_W; now rewrite length_map |].
  unfold expand_W. apply Forall_map. eapply Forall_impl; [exact Ha |].
  cbn. intros plane [Hlen Hrows]. split.
  - rewrite dup_last_length; lia.
  - now apply dup_last_Forall.
Qed.

Lemma expand_H_rect c w h a :
  (0 < h)%nat -> Rect3 c w h a -> Rect3 c w (S h) (expand_H a).
Proof.
  intros Hh [Hc Ha]. split; [unfold expand_H; now rewrite length_map |].
  unfold expand_H. apply Forall_map. eapply Forall_impl; [exact Ha |].
  cbn. intros plane [Hlen Hrows]. split; [now rewrite length_map |].
  apply Forall_map. eapply Forall_impl; [exact Hrows |].
  cbn. intros row Hrow. rewrite dup_last_length; lia.
Qed.

Lemma unexpand_W_rect n c w h t :
  Rect4 n c (S w) h t -> Rect4 n c w h (unexpand_W t).
Proof.
  intros [Hn Ht]. split; [unfold unexpand_W; now rewrite length_map |].
  unfold unexpand_W. apply Forall_map. eapply Forall_impl; [exact Ht |].
  cbn. intros a [Hc Ha]. split; [now rewrite length_map |].
  apply Forall_map. eapply Forall_impl; [exact Ha |].
  cbn. intros plane [Hlen Hrows]. split.
  - rewrite removelast_length, Hlen. reflexivity.
  - now apply removelast_Forall.
Qed.

Lemma unexpand_H_rect n c w h t :
  Rect4 n c w (S h) t -> Rect4 n c w h (unexpand_H t).
Proof.
  intros [Hn Ht]. split; [unfold unexpand_H; now rewrite length_map |].
  unfold unexpand_H. apply Forall_map. eapply Forall_impl; [exact Ht |].
  cbn. intros a [Hc Ha]. split; [now rewrite length_map |].
  apply Forall_map. eapply Forall_impl; [exact Ha |].
  cbn. intros plane [Hlen Hrows]. split; [now rewrite length_map |].
  apply Forall_map. eapply Forall_impl; [exact Hrows |].
  cbn. intros row Hrow. rewrite removelast_length, Hrow. reflexivity.
Qed.

Lemma shape3_rect c w h a :
  (0 < c)%nat -> (0 < w)%nat -> Rect3 c w h a ->
  shape3 a = (Z.of_nat c, Z.of_nat w, Z.of_nat h).
Proof.
  intros Hc Hw [Hlen Ha]. unfold shape3.
  destruct a as [| plane a]; [cbn in Hlen; lia |].
  inversion Ha as [| ? ? [Hp Hrows] _]; subst. cbn.
  destruct plane as [| row plane]; [cbn in Hw; lia |].
  inversion Hrows; subst. reflexivity.
Qed.

Lemma shape4_rect c w h t :
  (0 < c)%nat -> (0 < w)%nat -> Rect4 1 c w h t ->
  shape4 t = (1, Z.of_nat c, Z.of_nat w, Z.of_nat h).
Proof.
  intros Hc Hw [Hlen Ht]. unfold shape4.
  destruct t as [| a [| ? ?]]; try discriminate.
  inversion Ht; subst. cbn [hd length].
  now rewrite (shape3_rect c w h a).
Qed.

End ShapeFacts.

(** ** Inference *)

Section InferenceFacts.
Context `{E : Extern}.

(** The next even number. *)
Definition even_up (n : nat) : nat := if Nat.odd n then S n else n.

Lemma even_up_even n : Nat.even (even_up n) = true.
Proof.
  unfold even_up. destruct (Nat.odd n) eqn:Hodd.
  - now rewrite Nat.even_succ.
  - unfold Nat.odd in Hodd. now destruct (Nat.even n).
Qed.

Lemma odd_dimension (n : nat) : negb (Z.of_nat n mod 2 =? 0) = Nat.odd n.
Proof.
  pose proof (Nat.div2_odd n) as Hn.
  pose proof (Z.div_mod (Z.of_nat n) 2 ltac:(lia)) as Hdm.
  pose proof (Z.mod_pos_bound (Z.of_nat n) 2 ltac:(lia)) as Hb.
  destruct (Nat.odd n); cbn in Hn;
    destruct (Z.eqb_spec (Z.of_nat n mod 2) 0) as [H0 | H0]; cbn; auto; lia.
Qed.

(** The shape hypotheses on the two library calls around the network. *)
Definition forward_keeps_shape : Prop :=
  forall p b tr x s n c w h,
    rect4 n c w h x = true -> rect4 n c w h (fst (forward p b tr x s)) = true.

Definition noise_keeps_shape : Prop :=
  forall x s n c w h,
    rect4 n c w h x = true -> rect4 n c w h (add_batch_noise x s) = true.

Lemma denoise_shapes (args : Args) (model : module) (img : image)
    (c w h : nat) (world0 : world) :
  forward_keeps_shape -> noise_keeps_shape ->
  (0 < c)%nat -> (0 < w)%nat -> (0 < h)%nat ->
  rect3 c w h img = true ->
  exists pred input model' world',
    denoise args model img world0 = (inr (pred, input, model'), world') /\
    rect4 1 c (even_up w) (even_up h) input = true /\
    rect4 1 c w h pred = true.
Proof.
  intros Hfwd Hnoise Hc Hw Hh Himg.
  apply rect3_spec in Himg.
  unfold denoise.
  rewrite (shape3_rect c w h img Hc Hw Himg). cbn [fst snd].
  rewrite odd_dimension.
  set (img1 := if Nat.odd w then expand_W img else img).
  assert (H1 : Rect3 c (even_up w) h img1).
  { unfold img1, even_up. destruct (Nat.odd w); [now apply expand_W_rect | exact Himg]. }
  assert (Hw1 : (0 < even_up w)%nat) by (unfold even_up; destruct (Nat.odd w); lia).
  rewrite (shape3_rect c (even_up w) h img1 Hc Hw1 H1). cbn [snd].
  rewrite odd_dimension.
  set (img2 := if Nat.odd h then expand_H img1 else img1).
  assert (H2 : Rect3 c (even_up w) (even_up h) img2).
  { unfold img2, even_up at 2. destruct (Nat.odd h); [now apply expand_H_rect | exact H1]. }
  set (batch := if add_noise args then add_batch_noise [img2] (noise_sigma args)
                else [img2]).
  assert (Hb : rect4 1 c (even_up w) (even_up h) batch = true).
  { assert (H0 : rect4 1 c (even_up w) (even_up h) [img2] = true).
    { apply rect4_spec. split; [reflexivity |]. constructor; [exact H2 | constructor]. }
    unfold batch. destruct (add_noise args); [now apply Hnoise | exact H0]. }
  unfold mbind, M_bind, bind, with_no_grad, call_model.
  pose proof (Hfwd (m_params model) (m_buffers model) (training model) batch
                (FloatTensor [noise_sigma args]) _ _ _ _ Hb) as Hy.
  destruct (forward _ _ _ _ _) as [y b]. cbn [fst] in Hy. cbn.
  do 4 eexists. split; [reflexivity |]. split; [exact Hb |].
  apply rect4_spec in Hy. apply rect4_spec.
  unfold even_up in Hy.
  destruct (Nat.odd w), (Nat.odd h); auto using unexpand_W_rect, unexpand_H_rect.
Qed.

(** C5: on every image, in particular one with an odd width or an odd
    height, the inference driver pads the odd dimensions to the next even
    number, runs the network and crops, and the prediction it goes on to
    write has exactly the width and height of the image it read, provided
    the forward pass (and the optional noise injection before it) keeps the
    shape of its input. *)
Theorem C5_pad_crop_restores_shape (args : Args) (model : module) (img : image)
    (c w h : nat) (world0 : world) :
  forward_keeps_shape -> noise_keeps_shape ->
  (0 < c)%nat -> (0 < w)%nat -> (0 < h)%nat ->
  rect3 c w h img = true ->
  exists pred input model' world',
    denoise args model img world0 = (inr (pred, input, model'), world') /\
    shape4 input = (1, Z.of_nat c, Z.of_nat (even_up w), Z.of_nat (even_up h)) /\
    rect4 1 c w h pred = true /\
    shape4 pred = (1, Z.of_nat c, Z.of_nat w, Z.of_nat h).
Proof.
  intros Hfwd Hnoise Hc Hw Hh Himg.
  destruct (denoise_shapes args model img c w h world0)
    as (pred & input & model' & world' & Hrun & Hin & Hout); auto.
  exists pred, input, model', world'.
  assert (Hw1 : (0 < even_up w)%nat) by (unfold even_up; destruct (Nat.odd w); lia).
  repeat split; auto.
  - apply shape4_rect; auto. now apply rect4_spec.
  - apply shape4_rect; auto. now apply rect4_spec.
Qed.

(** Paths of the images written, in order. *)
Fixpoint imwrite_paths (evs : list event) : list string :=
  match evs with
  | [] => []
  | EvImwrite path _ :: evs' => path :: imwrite_paths evs'
  | _ :: evs' => imwrite_paths evs'
  end.

Lemma imwrite_paths_app evs1 evs2 :
  imwrite_paths (evs1 ++ evs2) = (imwrite_paths evs1 ++ imwrite_paths evs2)%list.
Proof.
  induction evs1 as [| ev evs1 IH]; cbn; [reflexivity |].
  destruct ev; cbn; now rewrite IH.
Qed.

(** The images written, each with the path it went to, in order. *)
Fixpoint imwrites (evs : list event) : list (string * tensor4) :=
  match evs with
  | [] => []
  | EvImwrite path data :: evs' => (path, data) :: imwrites evs'
  | _ :: evs' => imwrites evs'
  end.

Lemma imwrites_app evs1 evs2 :
  imwrites (evs1 ++ evs2) = (imwrites evs1 ++ imwrites evs2)%list.
Proof.
  induction evs1 as [| ev evs1 IH]; cbn; [reflexivity |].
  destruct ev; cbn; now rewrite IH.
Qed.

(** What one input file leaves on disk. *)
Definition written_for (args : Args) (image_name : string) : list string :=
  ("./outputs/" +:+ image_name +:+ ".png")
    :: (if add_noise args then ["noisy.png"] else []).

(** The image padded to even width and height. *)
Definition pad_odd (img : image) : image :=
  let img1 := if negb (snd (fst (shape3 img)) mod 2 =? 0) then expand_W img
              else img in
  if negb (snd (shape3 img1) mod 2 =? 0) then expand_H img1 else img1.

(** A batch cropped back to the width and height of [img]. *)
Definition crop_odd (img : image) (t : tensor4) : tensor4 :=
  let img1 := if negb (snd (fst (shape3 img)) mod 2 =? 0) then expand_W img
              else img in
  let t1 := if negb (snd (fst (shape3 img)) mod 2 =? 0) then unexpand_W t
            else t in
  if negb (snd (shape3 img1) mod 2 =? 0) then unexpand_H t1 else t1.

(** What the network is given for [img]: the padded image as a batch of one,
    with noise added under [--add_noise]. *)
Definition network_input (args : Args) (img : image) : tensor4 :=
  if add_noise args then add_batch_noise [pad_odd img] (noise_sigma args)
  else [pad_odd img].

(** The denoised image for [img]: the output of the forward pass on
    [network_input], cropped. *)
Definition denoised (args : Args) (model : module) (img : image) : tensor4 :=
  crop_odd img
    (fst (forward (m_params model) (m_buffers model) (training model)
            (network_input args img) (FloatTensor [noise_sigma args]))).

(** The network after that forward pass. *)
Definition model_after (args : Args) (model : module) (img : image) : module :=
  {| m_params := m_params model;
     m_buffers := snd (forward (m_params model) (m_buffers model) (training model)
                         (network_input args img) (FloatTensor [noise_sigma args]));
     training := training model |}.

(** What the run over the decoded files writes: per file the denoised image
    at ["./outputs/" + name + ".png"], then under [--add_noise] the network
    input at [noisy.png]. *)
Fixpoint expected_writes (args : Args) (inputs : list (string * image))
    (model : module) : list (string * tensor4) :=
  match inputs with
  | [] => []
  | (image_name, img) :: inputs' =>
      (("./outputs/" +:+ image_name +:+ ".png", denoised args model img)
         :: (if add_noise args then [("noisy.png", network_input args img)] else []))
      ++ expected_writes args inputs' (model_after args model img)
  end.

(** Both reads of the file succeed; [img] is what [read_image] returns. *)
Definition decoded_as (args : Args) (gray : bool) (image_name : string)
    (img : image) : Prop :=
  cv2_imread (os_path_join (test_path args) image_name) false <> None /\
  exists raw, cv2_imread (os_path_join (test_path args) image_name) gray = Some raw /\
              img = to_chw gray raw.

Lemma denoise_run (args : Args) (model : module) (img : image) (w : world) :
  denoise args model img w
  = (inr (denoised args model img, network_input args img, model_after args model img),
     {| files := files w; grad_enabled := grad_enabled w;
        trace := (trace w ++ [EvForward Inference (training model) false
                                (FloatTensor [noise_sigma args])])%list |}).
Proof.
  unfold denoise, denoised, model_after, network_input, crop_odd, pad_odd,
    mbind, M_bind, bind, with_no_grad, call_model, ret.
  cbv zeta. cbn [files grad_enabled trace].
  destruct (forward _ _ _ _ _) as [y b]. reflexivity.
Qed.

Lemma test_image_run (args : Args) (gray : bool) (image_name : string)
    (img : image) (model : module) (w : world) :
  decoded_as args gray image_name img ->
  exists w' evs,
    test_image args gray image_name model w = (inr (model_after args model img), w') /\
    trace w' = (trace w ++ evs)%list /\
    imwrites evs = expected_writes args [(image_name, img)] model /\
    imwrite_paths evs = written_for args image_name.
Proof.
  intros (Hd1 & raw & Hd2 & ->). unfold test_image, read_image.
  destruct (cv2_imread _ false) as [raw0 |]; [| contradiction].
  rewrite Hd2.
  unfold mbind at 1, M_bind at 1, bind at 1. unfold ret at 1.
  unfold mbind at 1, M_bind at 1, bind at 1. rewrite denoise_run.
  unfold mbind, M_bind, bind, ret, cv2_imwrite, emit, written_for, output_path.
  cbn [files grad_enabled trace expected_writes].
  destruct (add_noise args); do 2 eexists;
    (split; [reflexivity |]); cbn [trace]; rewrite <- !app_assoc;
    (split; [reflexivity |]); split; reflexivity.
Qed.

Lemma test_loop_run (args : Args) (gray : bool) (names : list string)
    (imgs : list image) : forall (model : module) (w : world),
  Forall2 (decoded_as args gray) names imgs ->
  exists model' w' evs,
    for_each names (test_image args gray) model w = (inr model', w') /\
    trace w' = (trace w ++ evs)%list /\
    imwrites evs = expected_writes args (combine names imgs) model /\
    imwrite_paths evs = flat_map (written_for args) names.
Proof.
  intros model w Hdec. revert model w.
  induction Hdec as [| n img names imgs Hn _ IH]; intros model w.
  - exists model, w, []. cbn. now rewrite app_nil_r.
  - destruct (test_image_run args gray n img model w Hn)
      as (w1 & evs1 & Hrun1 & Ht1 & Hw1 & Hp1).
    destruct (IH (model_after args model img) w1)
      as (m2 & w2 & evs2 & Hrun2 & Ht2 & Hw2 & Hp2).
    exists m2, w2, (evs1 ++ evs2)%list. cbn [for_each flat_map combine].
    unfold mbind, M_bind, bind. rewrite Hrun1, Hrun2.
    split; [reflexivity |]. split; [now rewrite Ht2, Ht1, app_assoc |]. split.
    + rewrite imwrites_app, Hw1, Hw2. cbn [expected_writes].
      now rewrite app_nil_r.
    + now rewrite imwrite_paths_app, Hp1, Hp2.
Qed.

(** C7: where CUDA is available, the checkpoint loads and every file of the
    test directory decodes, the inference driver returns normally and what
    it writes is, file by file in directory order, the denoised image (the
    cropped output of the forward pass on the padded and, under
    [--add_noise], noised input) at ["./outputs/" + name + ".png"],
    followed under [--add_noise] by the network input at [noisy.png]. *)
Theorem C7_outputs_written (args : Args) (w : world) (d : state_dict)
    (p : params) (b : buffers) (names : list string) (imgs : list image) :
  cuda_available = true ->
  files w !! checkpoint_path args true = Some d ->
  load_state_dict true d = Some (p, b) ->
  os_listdir (test_path args) = Some names ->
  Forall2 (decoded_as args true) names imgs ->
  exists w' evs,
    test args w = (inr tt, w') /\
    trace w' = (trace w ++ evs)%list /\
    imwrites evs
    = expected_writes args (combine names imgs)
        {| m_params := p; m_buffers := b; training := false |} /\
    imwrite_paths evs = flat_map (written_for args) names.
Proof.
  intros Hcuda Hfile Hload Hdir Hdec.
  unfold test, mbind, M_bind, bind, torch_load, model_cuda.
  rewrite Hfile, Hload, Hcuda, Hdir. cbn [ret].
  set (w0 := {| files := files w; grad_enabled := grad_enabled w;
                trace := (trace w ++ [EvLoad (checkpoint_path args true)])%list |}).
  destruct (test_loop_run args true names imgs
              (model_eval {| m_params := p; m_buffers := b; training := true |})
              w0 Hdec)
    as (m' & w' & evs & Hrun & Ht & Hw & Hp).
  rewrite Hrun. exists w', (EvLoad (checkpoint_path args true) :: evs).
  split; [reflexivity |]. split; [| split; [exact Hw | exact Hp]].
  rewrite Ht. unfold w0. cbn. now rewrite <- app_assoc.
Qed.

(** Where CUDA is not available, [model.cuda()] stops the inference driver
    right after the checkpoint is loaded: no file is read and nothing is
    written. *)
Lemma test_without_cuda (args : Args) (w : world) (d : state_dict)
    (pb : params * buffers) :
  cuda_available = false ->
  files w !! checkpoint_path args true = Some d ->
  load_state_dict true d = Some pb ->
  test args w
  = (inl (CudaError "Torch not compiled with CUDA enabled"),
     {| files := files w; grad_enabled := grad_enabled w;
        trace := (trace w ++ [EvLoad (checkpoint_path args true)])%list |}).
Proof.
  intros Hcuda Hfile Hload. destruct pb as [p b].
  unfold test, mbind, M_bind, bind, torch_load, model_cuda.
  now rewrite Hfile, Hload, Hcuda.
Qed.

End InferenceFacts.

(** ** The properties on the concrete instance *)

Module DemoFacts.
Import Demo.

Definition w0 : world := initial_world ∅.

(** [--is_train --epoches 6 --val_epoch 3] *)
Definition args_k3 : Args := with_flags default_args false true false 6 3.

(** [--is_train --epoches 3] *)
Definition args_e3 : Args := with_flags default_args false true false 3 5.

(** [--is_train --is_test --epoches 0], without [--is_gray] *)
Definition args_rgb : Args := with_flags default_args false true true 0 5.

Definition demo_model : module :=
  {| m_params := 0; m_buffers := 0; training := true |}.

Definition demo_loader : list tensor4 := [[pic]].

Lemma demo_forward_keeps_shape : forward_keeps_shape.
Proof. intros p b tr x s n c w h Hx. exact Hx. Qed.

Lemma demo_noise_keeps_shape : noise_keeps_shape.
Proof. intros x s n c w h Hx. exact Hx. Qed.

(** In the fifth epoch the validation loop does run its forward passes in
    training mode, and they move the buffers of the network. *)
Example demo_validation_in_training_mode :
  validate demo_loader [0; 30; 60] 4 demo_model w0
  = (inr {| m_params := 0; m_buffers := 3; training := true |},
     {| files := ∅; grad_enabled := true;
        trace := [EvForward (Validation 4) true true [0%float];
                  EvForward (Validation 4) true true [0x1.e1e1e1e1e1e1ep-4%float];
                  EvForward (Validation 4) true true [0x1.e1e1e1e1e1e1ep-3%float]] |}).
Proof. vm_compute. reflexivity. Qed.

(** With [--val_epoch 3] and six epochs the only periodic save follows the
    fifth epoch; the third and the sixth have none. *)
Example demo_val_epoch_ignored :
  let '(r, w) := main args_k3 w0 in
  r = inr tt /\
  List.filter (fun ev => match ev with
                         | EvSave _ | EvForward (Validation _) _ _ _
                         | EvOptimStep _ => true
                         | _ => false
                         end) (trace w)
  = (repeat (EvOptimStep 0) 6 ++ repeat (EvOptimStep 1) 6 ++
     repeat (EvOptimStep 2) 6 ++ repeat (EvOptimStep 3) 6 ++
     repeat (EvOptimStep 4) 6 ++
     [EvSave "./models/net_rgb.pth";
      EvForward (Validation 4) true true [0%float];
      EvForward (Validation 4) true true [0x1.e1e1e1e1e1e1ep-4%float];
      EvForward (Validation 4) true true [0x1.e1e1e1e1e1e1ep-3%float]] ++
     repeat (EvOptimStep 5) 6 ++ [EvSave "./models/net_rgb.pth"])%list.
Proof. vm_compute. split; reflexivity. Qed.

(** Training the colour network and then testing in the same run: training
    saves [net_rgb.pth], inference fails looking for [net_gray.pth]. *)
Example demo_rgb_train_then_test :
  let '(r, w) := main args_rgb w0 in
  r = inl (FileNotFoundError "./models/net_gray.pth") /\
  trace w = [EvSave "./models/net_rgb.pth"] /\
  files w !! "./models/net_rgb.pth" = Some (0, 0) /\
  files w !! "./models/net_gray.pth" = None.
Proof. vm_compute. repeat split; reflexivity. Qed.

End DemoFacts.

(** ** Instances of the theorems *)

Module Witnesses.
Import Demo DemoFacts.

Lemma C2_witness :
  grad_enabled w0 = true /\
  exists evs,
    trace (snd (epoch_body args_k3 demo_loader demo_loader
                  [0; 15; 30; 45; 60; 75] [0; 30; 60] 4 (demo_model, 0) w0))
      = (trace w0 ++ evs)%list /\
    forall e tr gr sg,
      In (EvForward (Validation e) tr gr sg) evs -> tr = true /\ gr = true.
Proof.
  split; [reflexivity |].
  apply (C2_validation_forward_in_training_mode args_k3 demo_loader demo_loader
           [0; 15; 30; 45; 60; 75] [0; 30; 60] 4 (demo_model, 0) w0).
  reflexivity.
Defined.

Lemma C4_witness :
  (2 + 1) mod 5 <> 0 /\ (2 + 1) mod val_epoch args_k3 = 0 /\
  exists evs,
    trace (snd (epoch_body args_k3 demo_loader demo_loader
                  [0; 15; 30; 45; 60; 75] [0; 30; 60] 2 (demo_model, 0) w0))
      = (trace w0 ++ evs)%list /\
    forall ev, In ev evs ->
      match ev with
      | EvSave _ | EvForward (Validation _) _ _ _ => False
      | _ => True
      end.
Proof.
  split; [discriminate |]. split; [reflexivity |].
  apply (C4_no_validation_unless_multiple_of_5 args_k3 demo_loader demo_loader
           [0; 15; 30; 45; 60; 75] [0; 30; 60] 2 (demo_model, 0) w0).
  discriminate.
Defined.

Lemma C3_witness :
  is_gray args_rgb = false /\
  files w0 !! (model_path args_rgb +:+ "net_gray.pth") = None /\
  exists w',
    final_save args_rgb demo_model w0 = (inr tt, w') /\
    files w' !! (model_path args_rgb +:+ "net_rgb.pth") = Some (0, 0) /\
    test args_rgb w'
      = (inl (FileNotFoundError (model_path args_rgb +:+ "net_gray.pth")), w').
Proof.
  split; [reflexivity |]. split; [reflexivity |].
  apply (C3_test_ignores_gray_flag args_rgb w0 demo_model); reflexivity.
Defined.

Lemma C5_witness :
  forward_keeps_shape /\ noise_keeps_shape /\
  rect3 1 3 3 pic = true /\
  exists pred input model' world',
    denoise default_args demo_model pic w0 = (inr (pred, input, model'), world') /\
    shape4 input = (1, 1, 4, 4) /\
    rect4 1 1 3 3 pred = true /\
    shape4 pred = (1, 1, 3, 3).
Proof.
  split; [exact demo_forward_keeps_shape |].
  split; [exact demo_noise_keeps_shape |].
  split; [reflexivity |].
  apply (C5_pad_crop_restores_shape default_args demo_model pic 1 3 3 w0
           demo_forward_keeps_shape demo_noise_keeps_shape);
    [lia | lia | lia | reflexivity].
Defined.

Definition w_gray : world :=
  {| files := {["./models/net_gray.pth" := (7, 0)]};
     grad_enabled := true; trace := [] |}.

Lemma C7_witness :
  cuda_available = true /\
  files w_gray !! checkpoint_path default_args true = Some (7, 0) /\
  os_listdir (test_path default_args) = Some ["a.png"; "b.jpg"] /\
  Forall2 (decoded_as default_args true) ["a.png"; "b.jpg"] [pic; pic] /\
  exists w' evs,
    test default_args w_gray = (inr tt, w') /\
    trace w' = (trace w_gray ++ evs)%list /\
    imwrites evs
    = [("./outputs/a.png.png", [pic]); ("./outputs/b.jpg.png", [pic])] /\
    imwrite_paths evs = ["./outputs/a.png.png"; "./outputs/b.jpg.png"].
Proof.
  assert (Hdec : Forall2 (decoded_as default_args true) ["a.png"; "b.jpg"] [pic; pic]).
  { repeat constructor; try discriminate; exists pic; split; reflexivity. }
  split; [reflexivity |]. split; [reflexivity |]. split; [reflexivity |].
  split; [exact Hdec |].
  apply (C7_outputs_written default_args w_gray (7, 0) 7 0
           ["a.png"; "b.jpg"] [pic; pic]);
    [reflexivity | reflexivity | reflexivity | reflexivity | exact Hdec].
Defined.

(** Three epochs of training on the instance, the period of the periodic
    save being five. *)
Definition ctx_e3 : train_ctx :=
  {| ctx_train_dataloader := demo_loader;
     ctx_val_dataloader := demo_loader;
     ctx_train_noises := [0; 15; 30; 45; 60];
     ctx_val_noises := [0; 30];
     ctx_model := demo_model;
     ctx_optimizer := 0 |}.

Definition after_e3 : world :=
  Eval vm_compute in snd (train_epochs args_e3 ctx_e3 w0).

Definition model_e3 : module :=
  {| m_params := 15; m_buffers := 15; training := true |}.

Lemma C10_witness :
  train_setup args_e3 w0 = (inr ctx_e3, w0) /\
  train_epochs args_e3 ctx_e3 w0 = (inr (model_e3, 15), after_e3) /\
  epoches args_e3 mod 5 <> 0 /\
  imwrite_paths (trace after_e3) = [] /\
  List.filter (fun ev => match ev with EvSave _ => true | _ => false end)
    (trace after_e3) = [] /\
  exists w3,
    train args_e3 w0 = (inr tt, w3) /\
    trace w3 = (trace after_e3 ++ [EvSave "./models/net_rgb.pth"])%list /\
    files w3 = <["./models/net_rgb.pth" := (15, 15)]> (files after_e3) /\
    files w3 !! "./models/net_rgb.pth" = Some (15, 15).
Proof.
  split; [vm_compute; reflexivity |].
  split; [vm_compute; reflexivity |].
  split; [discriminate |].
  split; [vm_compute; reflexivity |].
  split; [vm_compute; reflexivity |].
  apply (C10_final_save args_e3 ctx_e3 w0 w0 after_e3 model_e3 15);
    vm_compute; reflexivity.
Defined.

End Witnesses.

(** ** Binary64 arithmetic of the noise scale

    The division by 255 of [main] (line 312) and of the two noise loops
    (lines 116 and 171), read through the specification of the primitive
    floats. *)

Section Binary64.

Lemma fexp64 z : fexp prec emax z = Z.max (z - 53) (-1074).
Proof. reflexivity. Qed.

Lemma digits2_pos_bounds (p : positive) :
  2 ^ (Z.pos (digits2_pos p) - 1) <= Z.pos p < 2 ^ Z.pos (digits2_pos p).
Proof.
  induction p as [p IH | p IH |]; cbn [digits2_pos].
  - rewrite Pos2Z.inj_succ.
    replace (Z.succ (Z.pos (digits2_pos p)) - 1)
      with (Z.succ (Z.pos (digits2_pos p) - 1)) by lia.
    rewrite !Z.pow_succ_r by lia. lia.
  - rewrite Pos2Z.inj_succ.
    replace (Z.succ (Z.pos (digits2_pos p)) - 1)
      with (Z.succ (Z.pos (digits2_pos p) - 1)) by lia.
    rewrite !Z.pow_succ_r by lia. lia.
  - cbn. lia.
Qed.

Lemma Zdigits2_nonneg q : 0 <= q -> 0 <= Zdigits2 q.
Proof. destruct q; cbn; lia. Qed.

Lemma Zdigits2_lt_pow q : 0 <= q -> q < 2 ^ Zdigits2 q.
Proof.
  destruct q as [| p | p]; cbn; try lia. intros _. apply digits2_pos_bounds.
Qed.

Lemma Zdigits2_le q k : 0 <= q -> 0 <= k -> q < 2 ^ k -> Zdigits2 q <= k.
Proof.
  destruct q as [| p | p]; cbn; try lia. intros _ Hk Hq.
  pose proof (digits2_pos_bounds p) as [Hlo _].
  assert (H : 2 ^ (Z.pos (digits2_pos p) - 1) < 2 ^ k) by lia.
  apply Z.pow_lt_mono_r_iff in H; lia.
Qed.

Lemma shr_1_m mrs : 0 <= shr_m mrs -> shr_m (shr_1 mrs) = shr_m mrs / 2.
Proof.
  destruct mrs as [m r s]. cbn [shr_m]. intros Hm.
  destruct m as [| [p | p |] | p]; cbn [shr_1 shr_m]; try lia.
  - reflexivity.
  - apply Z.div_unique with (r := 1); lia.
  - apply Z.div_unique with (r := 0); lia.
  - reflexivity.
Qed.

Lemma iter_shr_1_m (p : positive) : forall mrs,
  0 <= shr_m mrs ->
  shr_m (SpecFloat.iter_pos shr_1 p mrs) = shr_m mrs / 2 ^ Z.pos p.
Proof.
  induction p as [p IH | p IH |]; intros mrs Hm; cbn [SpecFloat.iter_pos].
  - assert (H1 : 0 <= shr_m (shr_1 mrs)).
    { rewrite shr_1_m by exact Hm. apply Z.div_pos; lia. }
    assert (H2 : 0 <= shr_m (SpecFloat.iter_pos shr_1 p (shr_1 mrs))).
    { rewrite IH by exact H1. apply Z.div_pos; lia. }
    rewrite IH, IH, shr_1_m by assumption.
    rewrite !Z.div_div by lia.
    f_equal.
    replace (Z.pos p~1) with (1 + Z.pos p + Z.pos p) by lia.
    rewrite !Z.pow_add_r by lia. lia.
  - assert (H2 : 0 <= shr_m (SpecFloat.iter_pos shr_1 p mrs)).
    { rewrite IH by exact Hm. apply Z.div_pos; lia. }
    rewrite IH, IH by assumption.
    rewrite !Z.div_div by lia.
    f_equal.
    replace (Z.pos p~0) with (Z.pos p + Z.pos p) by lia.
    rewrite !Z.pow_add_r by lia. lia.
  - rewrite shr_1_m by exact Hm. reflexivity.
Qed.

Lemma shr_m_of_loc m l : shr_m (shr_record_of_loc m l) = m.
Proof. destruct l as [| []]; reflexivity. Qed.

Lemma shr_fexp_noshift q e l :
  fexp prec emax (Zdigits2 q + e) <= e ->
  shr_fexp prec emax q e l = (shr_record_of_loc q l, e).
Proof.
  intros Hle. unfold shr_fexp, shr.
  destruct (fexp prec emax (Zdigits2 q + e) - e) eqn:Hn; try reflexivity. lia.
Qed.

(** After the shift of [shr_fexp] the mantissa fits in 53 bits. *)
Lemma shr_fexp_bounds q e l :
  0 <= q ->
  0 <= shr_m (fst (shr_fexp prec emax q e l)) < 2 ^ 53 /\
  snd (shr_fexp prec emax q e l) = Z.max e (fexp prec emax (Zdigits2 q + e)).
Proof.
  intros Hq. pose proof (Zdigits2_lt_pow q Hq) as Hd.
  pose proof (Zdigits2_nonneg q Hq) as Hd0.
  unfold shr_fexp, shr. rewrite fexp64.
  destruct (Z.max (Zdigits2 q + e - 53) (-1074) - e) as [| p | p] eqn:Hn;
    cbn [fst snd].
  - rewrite shr_m_of_loc. split; [| lia]. split; [lia |].
    eapply Z.lt_le_trans; [exact Hd |]. apply Z.pow_le_mono_r; lia.
  - rewrite iter_shr_1_m by (rewrite shr_m_of_loc; lia).
    rewrite shr_m_of_loc. split; [| lia]. split; [apply Z.div_pos; lia |].
    apply Z.div_lt_upper_bound; [lia |].
    rewrite <- Z.pow_add_r by lia.
    eapply Z.lt_le_trans; [exact Hd |]. apply Z.pow_le_mono_r; lia.
  - rewrite shr_m_of_loc. split; [| lia]. split; [lia |].
    eapply Z.lt_le_trans; [exact Hd |]. apply Z.pow_le_mono_r; lia.
Qed.

Lemma round_nearest_even_bounds m l :
  m <= round_nearest_even m l <= m + 1.
Proof.
  destruct l as [| []]; cbn; try lia. destruct (Z.even m); lia.
Qed.

Definition SF_one : spec_float := S754_finite false 4503599627370496 (-52).

(** A quotient below one rounds to a float between 0 and 1. *)
Lemma binary_round_aux_le_one q e l :
  0 <= q -> e <= -53 -> Zdigits2 q + e <= 0 ->
  SFleb (S754_zero false) (binary_round_aux prec emax false q e l) = true /\
  SFleb (binary_round_aux prec emax false q e l) SF_one = true.
Proof.
  intros Hq He Hd. unfold binary_round_aux.
  pose proof (shr_fexp_bounds q e l Hq) as [Hm He1].
  destruct (shr_fexp prec emax q e l) as [mrs e1]. cbn [fst snd] in Hm, He1.
  rewrite fexp64 in He1.
  pose proof (round_nearest_even_bounds (shr_m mrs) (loc_of_shr_record mrs)) as Hr.
  set (m1 := round_nearest_even (shr_m mrs) (loc_of_shr_record mrs)) in *.
  destruct (Z.eq_dec m1 (2 ^ 53)) as [Heq | Hne].
  - rewrite Heq. change (2 ^ 53) with 9007199254740992.
    unfold shr_fexp, shr. rewrite fexp64.
    change (Zdigits2 9007199254740992) with 54.
    replace (Z.max (54 + e1 - 53) (-1074) - e1) with 1 by lia.
    cbn [SpecFloat.iter_pos shr_record_of_loc shr_1 shr_m].
    change (emax - prec) with 971.
    replace (e1 + 1 <=? 971) with true by (symmetry; apply Z.leb_le; lia).
    unfold SFleb, SF_one, SFcompare. split; [reflexivity |].
    destruct (Z.compare_spec (e1 + 1) (-52)); try reflexivity. lia.
  - assert (Hm1 : 0 <= m1 < 2 ^ 53) by lia.
    rewrite shr_fexp_noshift.
    2:{ rewrite fexp64.
        pose proof (Zdigits2_le m1 53 ltac:(lia) ltac:(lia) ltac:(lia)). lia. }
    rewrite shr_m_of_loc.
    destruct m1 as [| p | p]; [split; reflexivity | | lia].
    change (emax - prec) with 971.
    replace (e1 <=? 971) with true by (symmetry; apply Z.leb_le; lia).
    unfold SFleb, SF_one, SFcompare. split; [reflexivity |].
    destruct (Z.compare_spec e1 (-52)); try reflexivity; lia.
Qed.

Definition SF_255 : spec_float := S754_finite false 8972014882652160 (-45).

(** A finite positive float below 255 divided by 255. *)
Lemma SFdiv_255_bounds (m : positive) (e : Z) :
  bounded prec emax m e = true ->
  e < -45 \/ (e = -45 /\ Z.pos m < 8972014882652160) ->
  SFleb (S754_zero false) (SF64div (S754_finite false m e) SF_255) = true /\
  SFleb (SF64div (S754_finite false m e) SF_255) SF_one = true.
Proof.
  intros Hb Hlt.
  unfold bounded, canonical_mantissa in Hb.
  apply andb_prop in Hb as [Hcanon Hemax].
  apply Z.eqb_eq in Hcanon. rewrite fexp64 in Hcanon.
  pose proof (digits2_pos_bounds m) as [_ Hm].
  set (d := Z.pos (digits2_pos m)) in *.
  assert (Hd : 0 < d <= 53) by (unfold d; lia).
  assert (Hm53 : Z.pos m < 2 ^ 53).
  { eapply Z.lt_le_trans; [exact Hm |]. apply Z.pow_le_mono_r; lia. }
  unfold SF64div, SFdiv, SF_255, SFdiv_core_binary. cbn [xorb].
  change (Zdigits2 (Z.pos m)) with d.
  change (Zdigits2 8972014882652160) with 53.
  rewrite fexp64.
  set (e' := Z.min (Z.max (d + e - (53 + -45) - 53) (-1074)) (e - -45)).
  set (s := e - -45 - e').
  assert (He' : e' <= -53) by (unfold e'; lia).
  assert (Hs : 0 <= s) by (unfold s, e'; lia).
  set (m' := match s with
             | 0 => Z.pos m
             | Z.pos _ => Z.shiftl (Z.pos m) s
             | Z.neg _ => 0
             end).
  assert (Hm' : m' = Z.pos m * 2 ^ s).
  { unfold m'. destruct s as [| p | p] eqn:Hsp; [cbn; lia | | lia].
    now rewrite Z.shiftl_mul_pow2 by lia. }
  destruct (Z.div_eucl m' 8972014882652160) as [q r] eqn:Hdiv.
  assert (Hq : q = m' / 8972014882652160) by (unfold Z.div; now rewrite Hdiv).
  assert (Hpow : 0 < 2 ^ s) by (apply Z.pow_pos_nonneg; lia).
  assert (Hq0 : 0 <= q) by (rewrite Hq; apply Z.div_pos; lia).
  apply binary_round_aux_le_one; [exact Hq0 | exact He' |].
  assert (Hdq : Zdigits2 q <= - e'); [| lia].
  apply Zdigits2_le; [exact Hq0 | lia |].
  rewrite Hq. apply Z.div_lt_upper_bound; [lia |].
  replace (- e') with (s + (- (e + 45))) by (unfold s; lia).
  rewrite Z.pow_add_r by lia. rewrite Hm'.
  assert (Hk : Z.pos m < 8972014882652160 * 2 ^ (- (e + 45))).
  { destruct Hlt as [Hlt | [-> Hlt]]; [| cbn; lia].
    assert (2 ^ 1 <= 2 ^ (- (e + 45))) by (apply Z.pow_le_mono_r; lia).
    change (2 ^ 1) with 2 in *. change (2 ^ 53) with 9007199254740992 in Hm53. lia. }
  nia.
Qed.

(** Dividing a float of [0, 255] by 255 gives a float of [0, 1]. *)
Lemma div_255_unit_interval (x : float) :
  (0 <=? x)%float = true -> (x <=? 255)%float = true ->
  (0 <=? x / 255)%float = true /\ (x / 255 <=? 1)%float = true.
Proof.
  rewrite !leb_spec, div_spec.
  replace (Prim2SF 0) with (S754_zero false) by (vm_compute; reflexivity).
  replace (Prim2SF 255) with SF_255 by (vm_compute; reflexivity).
  replace (Prim2SF 1) with SF_one by (vm_compute; reflexivity).
  pose proof (Prim2SF_valid x) as Hvalid.
  destruct (Prim2SF x) as [s | s | | s m e].
  - intros _ _. split; reflexivity.
  - destruct s; discriminate.
  - discriminate.
  - intros H0 H255. destruct s; [discriminate |].
    cbn [valid_binary] in Hvalid.
    unfold SFleb, SF_255, SFcompare in H255.
    destruct (Z.compare_spec e (-45)) as [He | He | He]; [| | discriminate].
    + rewrite Pos.compare_cont_spec in H255. cbn [Pos.switch_Eq] in H255.
      destruct (Pos.compare_spec m 8972014882652160) as [Hm | Hm | Hm];
        [| | discriminate].
      * subst. split; vm_compute; reflexivity.
      * apply SFdiv_255_bounds; [exact Hvalid | right; split; [exact He | exact Hm]].
    + apply SFdiv_255_bounds; [exact Hvalid | now left].
Qed.

End Binary64.

(** ** The noise scale *)

Section NoiseScale.

(** X1: The command-line noise level of [test]: a binary64 value of [0, 255]
    leaves [args.noise_sigma /= 255] as a binary64 value of [0, 1]; the
    rounding of the division never carries it past 1. *)
Theorem normalize_sigma_unit_interval (x : float) :
  (0 <=? x)%float = true -> (x <=? 255)%float = true ->
  (0 <=? normalize_sigma x)%float = true /\
  (normalize_sigma x <=? 1)%float = true.
Proof. unfold normalize_sigma. apply div_255_unit_interval. Qed.

(** What the noise loops do with one integer level. *)
Definition level_in_unit_interval (n : Z) : bool :=
  match int_truediv_255 n with
  | inr s => PrimFloat.Leibniz.eqb s (float_of_int n / 255)%float
             && (0 <=? s)%float && (s <=? 1)%float
  | inl _ => false
  end.

Lemma levels_checked :
  forallb level_in_unit_interval (map Z.of_nat (seq 0 256)) = true.
Proof. vm_compute. reflexivity. Qed.

(** X2: The integer noise levels of the training and validation loops: for a
    level of 0..255, [int_noise_sigma / 255] does not overflow, is the
    binary64 quotient of the level by 255, and lies in [0, 1]. *)
Theorem level_sigma_unit_interval (n : Z) :
  0 <= n <= 255 ->
  exists s : float,
    int_truediv_255 n = inr s /\
    s = (float_of_int n / 255)%float /\
    (0 <=? s)%float = true /\ (s <=? 1)%float = true.
Proof.
  intros Hn.
  pose proof levels_checked as Hall.
  rewrite List.forallb_forall in Hall.
  specialize (Hall n). unfold level_in_unit_interval in Hall.
  destruct (int_truediv_255 n) as [e | s].
  - discriminate Hall. apply in_map_iff. exists (Z.to_nat n).
    split; [lia |]. apply in_seq. lia.
  - exists s. split; [reflexivity |].
    assert (Hin : In n (map Z.of_nat (seq 0 256))).
    { apply in_map_iff. exists (Z.to_nat n). split; [lia |]. apply in_seq. lia. }
    apply Hall in Hin.
    apply andb_prop in Hin as [Hin H1]. apply andb_prop in Hin as [Heq H0].
    apply FloatAxioms.Leibniz.eqb_spec in Heq. auto.
Qed.


End NoiseScale.

Module NoiseScaleWitnesses.

Lemma normalize_sigma_unit_interval_witness :
  (0 <=? 25)%float = true /\ (25 <=? 255)%float = true /\
  (0 <=? normalize_sigma 25)%float = true /\
  (normalize_sigma 25 <=? 1)%float = true.
Proof.
  split; [reflexivity |]. split; [reflexivity |].
  apply (normalize_sigma_unit_interval 25); reflexivity.
Defined.

Lemma level_sigma_unit_interval_witness :
  0 <= 75 <= 255 /\
  exists s : float,
    int_truediv_255 75 = inr s /\
    s = (float_of_int 75 / 255)%float /\
    (0 <=? s)%float = true /\ (s <=? 1)%float = true.
Proof.
  split; [lia |]. apply (level_sigma_unit_interval 75). lia.
Defined.


End NoiseScaleWitnesses.

(** ** Enumerating noise levels *)

Section RangeFacts.
Context `{E : Extern}.

(** Membership in [range(a, b, c)] for a positive step. *)
Lemma py_range_pos_spec (a b c x : Z) :
  0 < c ->
  exists l, py_range a b c = inr l /\
    (In x l <-> exists k, 0 <= k /\ x = a + k * c /\ x < b).
Proof.
  intros Hc. unfold py_range, range_len.
  destruct (Z.eqb_spec c 0) as [-> | _]; [lia |].
  replace (0 <? c) with true by (symmetry; apply Z.ltb_lt; lia).
  eexists. split; [reflexivity |].
  rewrite in_map_iff. split.
  - intros (i & <- & Hi). apply in_seq in Hi.
    exists (Z.of_nat i). split; [lia |]. split; [reflexivity |].
    destruct (Z.ltb_spec a b) as [Hab | Hab]; [| cbn in Hi; lia].
    assert (Hq : Z.of_nat i <= (b - a - 1) / c).
    { pose proof (Z.div_pos (b - a - 1) c ltac:(lia) Hc). lia. }
    pose proof (Z.mul_div_le (b - a - 1) c Hc) as Hmul.
    nia.
  - intros (k & Hk & -> & Hlt).
    exists (Z.to_nat k). split; [f_equal; lia |].
    apply in_seq.
    destruct (Z.ltb_spec a b) as [Hab | Hab]; [| nia].
    assert (Hq : k <= (b - a - 1) / c).
    { apply Z.div_le_lower_bound; [exact Hc | nia]. }
    lia.
Qed.

(** X3: With a positive step the configured upper bound is inclusive: the
    levels [train] enumerates after the adjustment of [main] are the points
    [lo + k * step] up to and including [hi]. *)
Theorem enumerated_noises_inclusive (lo hi step x : Z) (w : world) :
  0 < step ->
  exists l,
    enumerated_noises [lo; hi; step] w = (inr l, w) /\
    (In x l <-> exists k, 0 <= k /\ x = lo + k * step /\ x <= hi).
Proof.
  intros Hstep.
  destruct (py_range_pos_spec lo (hi + 1) step x Hstep) as (l & Hl & Hin).
  exists l. split.
  - unfold enumerated_noises, incr_upper, noise_list, mbind, M_bind, bind. cbn.
    unfold lift. now rewrite Hl.
  - rewrite Hin. split; intros (k & Hk & Hx & Hb); exists k; repeat split; auto; lia.
Qed.

(** A computation that leaves the world as it found it. *)
Definition effect_free {A} (m : M A) : Prop := forall w, snd (m w) = w.

Lemma effect_free_bind {A B} (m : M A) (k : A -> M B) :
  effect_free m -> (forall a, effect_free (k a)) -> effect_free (m ≫= k).
Proof.
  intros Hm Hk w. unfold mbind, M_bind, bind. specialize (Hm w).
  destruct (m w) as [[e | a] w1]; cbn in *; subst; [reflexivity | apply Hk].
Qed.

Lemma effect_free_for_each {A S} (l : list A) (body : A -> S -> M S) (s : S) :
  (forall x s, effect_free (body x s)) -> effect_free (for_each l body s).
Proof.
  intros Hbody. revert s. induction l as [| x l IH]; intros s; cbn.
  - intros w. reflexivity.
  - apply effect_free_bind; [apply Hbody | intros s'; apply IH].
Qed.

Lemma load_images_effect_free tr gray base : effect_free (load_images tr gray base).
Proof.
  unfold load_images. destruct (os_walk_files _); [| intros w; reflexivity].
  apply effect_free_for_each. intros fn images.
  apply effect_free_bind; [| intros img w; reflexivity].
  unfold read_image. destruct (cv2_imread _ _); intros w; reflexivity.
Qed.

Lemma images_to_patches_effect_free images p : effect_free (images_to_patches images p).
Proof.
  unfold images_to_patches, np_vstack. destruct (fold_left _ _ _); intros w; reflexivity.
Qed.

Lemma noise_list_effect_free iv : effect_free (noise_list iv).
Proof.
  unfold noise_list.
  destruct (iv !! 0%nat), (iv !! 1%nat), (iv !! 2%nat); intros w; reflexivity.
Qed.

(** Everything [train] does before the epoch loop leaves the world alone. *)
Lemma train_setup_effect_free args : effect_free (train_setup args).
Proof.
  unfold train_setup.
  apply effect_free_bind; [apply load_images_effect_free | intros ?].
  apply effect_free_bind; [apply load_images_effect_free | intros ?].
  apply effect_free_bind; [apply images_to_patches_effect_free | intros ?].
  apply effect_free_bind; [apply images_to_patches_effect_free | intros ?].
  apply effect_free_bind; [apply noise_list_effect_free | intros ?].
  apply effect_free_bind; [apply noise_list_effect_free | intros ?].
  destruct (weights_init_kaiming _). intros w. reflexivity.
Qed.

Lemma fails_bind {A B} (m : M A) (k : A -> M B) (w : world) :
  effect_free m ->
  (forall a, exists e, k a w = (inl e, w)) ->
  exists e, (m ≫= k) w = (inl e, w).
Proof.
  intros Hm Hk. unfold mbind, M_bind, bind. specialize (Hm w).
  destruct (m w) as [[e | a] w1]; cbn in Hm; subst; [now exists e | apply Hk].
Qed.

Lemma noise_list_zero_step (iv : list Z) (w : world) :
  iv !! 2%nat = Some 0 -> exists e, noise_list iv w = (inl e, w).
Proof.
  intros H2. unfold noise_list. rewrite H2.
  destruct (iv !! 0%nat) as [a |], (iv !! 1%nat) as [b |]; eexists; reflexivity.
Qed.

(** X4: A zero step in either noise interval is refused when the noise lists
    are built: [train] ends in an exception before any network exists, and
    nothing has been saved, written or logged. *)
Theorem train_zero_step_aborts (args : Args) (w : world) :
  train_noise_interval args !! 2%nat = Some 0 \/
  val_noise_interval args !! 2%nat = Some 0 ->
  exists e, train args w = (inl e, w).
Proof.
  intros Hzero.
  assert (Hsetup : exists e, train_setup args w = (inl e, w)).
  { unfold train_setup.
    apply fails_bind; [apply load_images_effect_free | intros ?].
    apply fails_bind; [apply load_images_effect_free | intros ?].
    apply fails_bind; [apply images_to_patches_effect_free | intros ?].
    apply fails_bind; [apply images_to_patches_effect_free | intros ?].
    destruct Hzero as [Hz | Hz].
    - destruct (noise_list_zero_step _ w Hz) as (e & He).
      exists e. unfold mbind, M_bind, bind. now rewrite He.
    - apply fails_bind; [apply noise_list_effect_free | intros ?].
      destruct (noise_list_zero_step _ w Hz) as (e & He).
      exists e. unfold mbind, M_bind, bind. now rewrite He. }
  destruct Hsetup as (e & He).
  exists e. unfold train, mbind, M_bind, bind. now rewrite He.
Qed.

Lemma for_each_nil_inner {A B S} (l : list A) (body : A -> B -> S -> M S) (s : S) :
  for_each l (fun x s => for_each [] (body x) s) s = ret s.
Proof. induction l as [| x l IH]; cbn; [reflexivity | exact IH]. Qed.

Lemma py_range1_pos (n : Z) :
  0 < n -> exists l, py_range1 n = 0 :: l.
Proof.
  intros Hn. unfold py_range1.
  destruct (Z.to_nat n) as [| k] eqn:Hk; [lia |].
  cbn. eexists. reflexivity.
Qed.

Lemma epoch_body_empty_levels (args : Args) (tdl vdl : list tensor4)
    (tn vn : list Z) (epoch_idx : Z) (s : module * opt_state) (w : world) :
  tn = [] \/ tdl = [] ->
  epoch_body args tdl vdl tn vn epoch_idx s w = (inl ZeroDivisionError, w).
Proof.
  intros Hempty. destruct s as [model opt]. unfold epoch_body.
  assert (Hloop :
    for_each tdl
      (fun batch_data s => for_each tn (train_step epoch_idx batch_data) s)
      (model_train model, opt, 0)
    = ret (model_train model, opt, 0)).
  { destruct Hempty as [-> | ->]; [apply for_each_nil_inner | reflexivity]. }
  unfold mbind, M_bind, bind. rewrite Hloop. reflexivity.
Qed.

(** X5: An empty training noise list (or an empty training loader) ends the
    first epoch in the division of the running loss by a zero count: no
    epoch completes and nothing is saved. *)
Theorem train_epochs_empty_levels (args : Args) (c : train_ctx) (w : world) :
  0 < epoches args ->
  ctx_train_noises c = [] \/ ctx_train_dataloader c = [] ->
  train_epochs args c w = (inl ZeroDivisionError, w).
Proof.
  intros Hn Hempty. unfold train_epochs, epoch_loop.
  destruct (py_range1_pos _ Hn) as (l & ->).
  cbn [for_each]. unfold mbind, M_bind, bind.
  now rewrite epoch_body_empty_levels.
Qed.

(** X6: With no epoch to run, [train] saves the freshly initialised network. *)
Theorem train_without_epochs (args : Args) (c : train_ctx) (w w0 : world) :
  epoches args <= 0 ->
  train_setup args w = (inr c, w0) ->
  train args w
  = (inr tt,
     {| files := <[checkpoint_path args (is_gray args) :=
                     model_state_dict (ctx_model c)]> (files w);
        grad_enabled := grad_enabled w;
        trace := (trace w ++ [EvSave (checkpoint_path args (is_gray args))])%list |}).
Proof.
  intros Hn Hsetup.
  pose proof (train_setup_effect_free args w) as Hw. rewrite Hsetup in Hw.
  cbn in Hw. subst w0.
  unfold train, mbind, M_bind, bind. rewrite Hsetup.
  unfold train_epochs, epoch_loop, py_range1.
  replace (Z.to_nat (epoches args)) with 0%nat by lia. reflexivity.
Qed.

End RangeFacts.

(** ** Checkpoint files as a frame *)

Section FileFrame.
Context `{E : Extern}.

(** A computation that leaves the checkpoint files alone. *)
Definition keeps_files {A} (m : M A) : Prop :=
  forall w, files (snd (m w)) = files w.

Lemma keeps_files_ret {A} (a : A) : keeps_files (ret a).
Proof. intros w. reflexivity. Qed.

Lemma keeps_files_raise {A} (e : exn) : keeps_files (raise (A := A) e).
Proof. intros w. reflexivity. Qed.

Lemma keeps_files_lift {A} (r : exn + A) : keeps_files (lift r).
Proof. intros w. reflexivity. Qed.

Lemma keeps_files_emit (ev : event) : keeps_files (emit ev).
Proof. intros w. reflexivity. Qed.

Lemma keeps_files_bind {A B} (m : M A) (k : A -> M B) :
  keeps_files m -> (forall a, keeps_files (k a)) -> keeps_files (m ≫= k).
Proof.
  intros Hm Hk w. unfold mbind, M_bind, bind. specialize (Hm w).
  destruct (m w) as [[e | a] w1]; cbn in *; [exact Hm |].
  now rewrite Hk.
Qed.

Lemma keeps_files_for_each {A S} (l : list A) (body : A -> S -> M S) (s : S) :
  (forall x s, keeps_files (body x s)) -> keeps_files (for_each l body s).
Proof.
  intros Hbody. revert s. induction l as [| x l IH]; intros s; cbn.
  - apply keeps_files_ret.
  - apply keeps_files_bind; [apply Hbody | intros s'; apply IH].
Qed.

Lemma keeps_files_call_model ph m x sigma : keeps_files (call_model ph m x sigma).
Proof. intros w. unfold call_model. now destruct (forward _ _ _ _ _). Qed.

Lemma keeps_files_with_no_grad {A} (m : M A) :
  keeps_files m -> keeps_files (with_no_grad m).
Proof.
  intros Hm w. unfold with_no_grad.
  specialize (Hm {| files := files w; grad_enabled := false; trace := trace w |}).
  now destruct (m _) as [r w'].
Qed.

Lemma keeps_files_torch_load path : keeps_files (torch_load path).
Proof. intros w. unfold torch_load. now destruct (files w !! path). Qed.

Lemma keeps_files_train_step epoch_idx batch n s :
  keeps_files (train_step epoch_idx batch n s).
Proof.
  destruct s as [[model opt] li]. unfold train_step.
  apply keeps_files_bind; [apply keeps_files_lift | intros sigma].
  apply keeps_files_bind; [apply keeps_files_call_model | intros [y model']].
  destruct (optimizer_step _ _ _).
  apply keeps_files_bind; [apply keeps_files_emit | intros _].
  apply keeps_files_ret.
Qed.

Lemma keeps_files_val_step epoch_idx batch n s :
  keeps_files (val_step epoch_idx batch n s).
Proof.
  destruct s as [model li]. unfold val_step.
  apply keeps_files_bind; [apply keeps_files_lift | intros sigma].
  apply keeps_files_bind; [apply keeps_files_call_model | intros [y model']].
  apply keeps_files_ret.
Qed.

Lemma keeps_files_validate vdl vn epoch_idx model :
  keeps_files (validate vdl vn epoch_idx model).
Proof.
  unfold validate.
  apply keeps_files_bind.
  - apply keeps_files_for_each. intros batch s.
    apply keeps_files_for_each. intros n s'. apply keeps_files_val_step.
  - intros [model' li].
    apply keeps_files_bind; [| intros _; apply keeps_files_ret].
    unfold div_by_loss_idx.
    destruct (li =? 0); [apply keeps_files_raise | apply keeps_files_ret].
Qed.

Lemma keeps_files_denoise args model img : keeps_files (denoise args model img).
Proof.
  unfold denoise.
  apply keeps_files_bind.
  - apply keeps_files_with_no_grad, keeps_files_call_model.
  - intros [y m']. apply keeps_files_ret.
Qed.

Lemma keeps_files_test_image args gray name model :
  keeps_files (test_image args gray name model).
Proof.
  unfold test_image. destruct (cv2_imread _ false); [| apply keeps_files_raise].
  apply keeps_files_bind.
  { unfold read_image.
    destruct (cv2_imread _ gray); [apply keeps_files_ret | apply keeps_files_raise]. }
  intros img. apply keeps_files_bind; [apply keeps_files_denoise |].
  intros [[y noisy] m'].
  apply keeps_files_bind; [apply keeps_files_emit | intros _].
  apply keeps_files_bind; [| intros _; apply keeps_files_ret].
  destruct (add_noise args); [apply keeps_files_emit | apply keeps_files_ret].
Qed.

Lemma keeps_files_test args : keeps_files (test args).
Proof.
  unfold test.
  apply keeps_files_bind; [apply keeps_files_torch_load | intros d].
  destruct (load_state_dict true d) as [[p b] |]; [| apply keeps_files_raise].
  apply keeps_files_bind.
  { unfold model_cuda.
    destruct cuda_available; [apply keeps_files_ret | apply keeps_files_raise]. }
  intros _.
  destruct (os_listdir _); [| apply keeps_files_raise].
  apply keeps_files_bind; [| intros _; apply keeps_files_ret].
  apply keeps_files_for_each. intros name m. apply keeps_files_test_image.
Qed.

End FileFrame.

(** ** What validation and inference leave unchanged *)

Section FrameFacts.
Context `{E : Extern}.

Lemma validation_run_frame (vdl : list tensor4) (vn : list Z)
    (epoch_idx : Z) (model : module) (w : world) :
  files (snd (validate vdl vn epoch_idx model w)) = files w /\
  (forall model', fst (validate vdl vn epoch_idx model w) = inr model' ->
      m_params model' = m_params model /\ training model' = training model).
Proof.
  split; [apply keeps_files_validate |].
  destruct (validate_triple vdl vn (fun _ _ => True) epoch_idx model)
    with (w := w) as (evs & _ & _ & _ & Hr); [easy |].
  intros model' Hfst. rewrite Hfst in Hr. exact Hr.
Qed.

(** X7: The validation loop only runs forward passes: whatever its outcome, the
    checkpoint files are as before and every event it logs is a validation
    forward pass of this epoch; when it returns, the network has the
    parameters and the mode it came with. *)
Theorem validation_changes_no_parameter (vdl : list tensor4) (vn : list Z)
    (epoch_idx : Z) (model : module) (w : world) :
  let r := validate vdl vn epoch_idx model w in
  files (snd r) = files w /\
  (exists evs,
      trace (snd r) = (trace w ++ evs)%list /\
      forall ev, In ev evs ->
        exists sg, ev = EvForward (Validation epoch_idx) (training model)
                          (grad_enabled w) sg) /\
  (forall model', fst r = inr model' ->
      m_params model' = m_params model /\ training model' = training model).
Proof.
  cbn. split; [apply keeps_files_validate |].
  destruct (validate_triple vdl vn
              (fun g ev => exists sg,
                   ev = EvForward (Validation epoch_idx) (training model) g sg)
              epoch_idx model) with (w := w)
    as (evs & Ht & Hp & _ & Hr).
  { intros g sg. now exists sg. }
  split.
  - exists evs. split; [exact Ht |].
    intros ev Hin. rewrite List.Forall_forall in Hp. exact (Hp ev Hin).
  - intros model' Hfst. rewrite Hfst in Hr. exact Hr.
Qed.

Lemma read_image_triple (P : bool -> event -> Prop) path gray :
  triple P not_assertion (read_image path gray) (fun _ => True).
Proof. unfold read_image. destruct (cv2_imread path gray); now triple_leaf. Qed.

Lemma denoise_triple (P : bool -> event -> Prop) args model img :
  (forall g sg, P g (EvForward Inference (training model) false sg)) ->
  triple P not_assertion (denoise args model img)
         (fun r => training (snd r) = training model).
Proof.
  intros Hf. unfold denoise.
  eapply triple_bind.
  - eapply triple_with_no_grad with
      (P' := fun g ev => g = false -> forall g', P g' ev).
    + apply triple_call_model with
        (Q := fun r => training (snd r) = training model).
      * intros g -> g'. apply Hf.
      * intros y m' _ Ht. exact Ht.
    + intros g ev Hev. now apply Hev.
  - intros [y m'] Hm. cbn in Hm. now apply triple_ret.
Qed.

Lemma test_image_triple (P : bool -> event -> Prop) args gray name model :
  (forall g sg, P g (EvForward Inference (training model) false sg)) ->
  (forall g path data, P g (EvImwrite path data)) ->
  triple P not_assertion (test_image args gray name model)
         (fun model' => training model' = training model).
Proof.
  intros Hf Hw. unfold test_image.
  destruct (cv2_imread _ false); [| now apply triple_raise].
  triple_seq; [apply read_image_triple |].
  eapply triple_bind; [now apply denoise_triple |].
  intros [[y noisy] m'] Hm. cbn in Hm.
  triple_seq; [now apply triple_emit |].
  triple_seq.
  { destruct (add_noise args); [now apply triple_emit | now apply triple_ret]. }
  now apply triple_ret.
Qed.

Lemma test_triple (P : bool -> event -> Prop) args :
  (forall g sg, P g (EvForward Inference false false sg)) ->
  (forall g path data, P g (EvImwrite path data)) ->
  (forall g path, P g (EvLoad path)) ->
  triple P not_assertion (test args) (fun _ => True).
Proof.
  intros Hf Hw Hl. unfold test.
  eapply triple_bind with (Q := fun _ => True); [now apply triple_torch_load |].
  intros d _.
  destruct (load_state_dict true d) as [[p b] |]; [| now apply triple_raise].
  triple_seq; [unfold model_cuda; destruct cuda_available; now triple_leaf |].
  destruct (os_listdir _); [| now apply triple_raise].
  eapply triple_bind with (Q := fun m : module => training m = false);
    [| intros m _; now apply triple_ret].
  apply triple_for_each; [| reflexivity].
  intros name m Hm. eapply triple_weaken.
  - apply test_image_triple; [| exact Hw]. rewrite Hm. exact Hf.
  - cbn. intros m' ->. exact Hm.
Qed.

(** X8: Inference runs the network in evaluation mode and without gradient
    tracking, whatever the state of the autograd switch at entry, and hands
    the switch back as it found it. *)
Theorem test_runs_in_inference_mode (args : Args) (w : world) :
  grad_enabled (snd (test args w)) = grad_enabled w /\
  exists evs,
    trace (snd (test args w)) = (trace w ++ evs)%list /\
    forall ph tr gr sg,
      In (EvForward ph tr gr sg) evs ->
      ph = Inference /\ tr = false /\ gr = false.
Proof.
  destruct (test_triple
              (fun _ ev => match ev with
                           | EvForward ph tr gr _ =>
                               ph = Inference /\ tr = false /\ gr = false
                           | _ => True
                           end) args) with (w := w)
    as (evs & Ht & Hp & Hg & _); cbn; auto.
  split; [exact Hg |]. exists evs. split; [exact Ht |].
  intros ph tr gr sg Hin. rewrite List.Forall_forall in Hp. exact (Hp _ Hin).
Qed.

(** X9: Inference never trains and never saves: it leaves the checkpoint files
    as they are and logs no optimizer step and no save. *)
Theorem test_never_trains_or_saves (args : Args) (w : world) :
  files (snd (test args w)) = files w /\
  exists evs,
    trace (snd (test args w)) = (trace w ++ evs)%list /\
    forall ev, In ev evs ->
      match ev with
      | EvSave _ | EvOptimStep _ => False
      | _ => True
      end.
Proof.
  split; [apply keeps_files_test |].
  destruct (test_triple
              (fun _ ev => match ev with
                           | EvSave _ | EvOptimStep _ => False
                           | _ => True
                           end) args) with (w := w)
    as (evs & Ht & Hp & _); cbn; auto.
  exists evs. split; [exact Ht |].
  intros ev Hin. rewrite List.Forall_forall in Hp. exact (Hp _ Hin).
Qed.

(** X10: An epoch whose 1-based index is a multiple of 5 and that completes
    leaves, in the checkpoint of the active mode, the parameters the epoch
    ends with: the save follows the last optimizer step and validation
    changes neither the file nor the parameters. *)
Theorem epoch_multiple_of_5_saves (args : Args) (tdl vdl : list tensor4)
    (tn vn : list Z) (epoch_idx : Z) (s : module * opt_state) (w w' : world)
    (model' : module) (opt' : opt_state) :
  (epoch_idx + 1) mod 5 = 0 ->
  epoch_body args tdl vdl tn vn epoch_idx s w = (inr (model', opt'), w') ->
  exists b,
    files w' = <[checkpoint_path args (is_gray args) := (m_params model', b)]> (files w).
Proof.
  intros H5 Hrun. destruct s as [model opt].
  unfold epoch_body, mbind, M_bind, bind in Hrun.
  pose proof (keeps_files_for_each tdl
                (fun batch_data s => for_each tn (train_step epoch_idx batch_data) s)
                (model_train model, opt, 0)
                (fun b s => keeps_files_for_each tn _ s
                              (fun n s' => keeps_files_train_step epoch_idx b n s'))
                w) as Hfiles1.
  destruct (for_each tdl _ _ w) as [[e | [[m1 o1] li]] w1]; [discriminate |].
  cbn [snd] in Hfiles1.
  unfold div_by_loss_idx in Hrun.
  destruct (li =? 0); [discriminate |]. cbn in Hrun.
  apply Z.eqb_eq in H5. rewrite H5 in Hrun.
  unfold torch_save in Hrun.
  set (w2 := {| files := _; grad_enabled := _; trace := _ |}) in Hrun.
  pose proof (validation_run_frame vdl vn epoch_idx m1 w2) as (Hfiles3 & Hparams).
  destruct (validate vdl vn epoch_idx m1 w2) as [[e | m2] w3]; [discriminate |].
  cbn in Hrun. injection Hrun as <- <- <-.
  exists (m_buffers m1). cbn [snd] in Hfiles3. rewrite Hfiles3.
  unfold w2. cbn [files]. rewrite Hfiles1.
  destruct (Hparams m2 eq_refl) as [-> _]. reflexivity.
Qed.

End FrameFacts.

(** ** Padding and cropping on the data *)

Section PadCropFacts.

Lemma removelast_dup_last {A} (l : list A) :
  l <> [] -> removelast (dup_last l) = l.
Proof.
  intros Hl. unfold dup_last. destruct (last l) as [x |] eqn:Hlast.
  - apply removelast_last.
  - apply last_None in Hlast. contradiction.
Qed.

Lemma map_removelast_dup_last {A} (ls : list (list A)) :
  Forall (fun l => l <> []) ls ->
  map (fun l => removelast l) (map dup_last ls) = ls.
Proof.
  induction 1 as [| l ls Hl _ IH]; cbn; [reflexivity |].
  now rewrite removelast_dup_last, IH.
Qed.

Lemma unexpand_expand_W (t : list image) :
  Forall (Forall (fun plane : list (list float) => plane <> [])) t ->
  unexpand_W (map expand_W t) = t.
Proof.
  induction 1 as [| a t Ha _ IH]; cbn; [reflexivity |].
  unfold unexpand_W in IH. rewrite IH. f_equal.
  unfold expand_W. now apply map_removelast_dup_last.
Qed.

Lemma unexpand_expand_H (t : list image) :
  Forall (Forall (Forall (fun row : list float => row <> []))) t ->
  unexpand_H (map expand_H t) = t.
Proof.
  induction 1 as [| a t Ha _ IH]; cbn; [reflexivity |].
  unfold unexpand_H in IH. rewrite IH. f_equal.
  unfold expand_H. clear IH.
  induction Ha as [| plane a Hp _ IHa]; cbn; [reflexivity |].
  now rewrite map_removelast_dup_last, IHa.
Qed.

Lemma unexpand_W_expand_H (a : image) :
  unexpand_W [expand_H a] = map expand_H (unexpand_W [a]).
Proof.
  unfold unexpand_W, expand_H. cbn. f_equal.
  rewrite !map_map.
  induction a as [| plane a IH]; cbn; [reflexivity |].
  rewrite IH. f_equal.
  induction plane as [| row [| row' plane] IHp]; cbn in *; try reflexivity.
  now rewrite IHp.
Qed.

(** The two crops of the inference driver undo its two paddings on the data
    itself: padding a rectangular image along either or both axes and
    cropping the same axes, in the order the driver uses, gives the image
    back. *)
Theorem crop_undoes_pad (a : image) (c w h : nat) (pad_W pad_H : bool) :
  rect3 c w h a = true -> (0 < w)%nat -> (0 < h)%nat ->
  let padded := (if pad_H then expand_H else fun x => x)
                  ((if pad_W then expand_W else fun x => x) a) in
  (if pad_H then unexpand_H else fun t => t)
    ((if pad_W then unexpand_W else fun t => t) [padded]) = [a].
Proof.
  intros Hrect Hw Hh. apply rect3_spec in Hrect as [_ Hrect]. cbn zeta.
  assert (HW : Forall (Forall (fun plane : list (list float) => plane <> [])) [a]).
  { constructor; [| constructor]. eapply Forall_impl; [exact Hrect |].
    cbn. intros plane [Hlen _] ->. cbn in Hlen. lia. }
  assert (HH : Forall (Forall (Forall (fun row : list float => row <> []))) [a]).
  { constructor; [| constructor]. eapply Forall_impl; [exact Hrect |].
    cbn. intros plane [_ Hrows]. eapply Forall_impl; [exact Hrows |].
    cbn. intros row Hlen ->. cbn in Hlen. lia. }
  destruct pad_W, pad_H.
  - rewrite unexpand_W_expand_H.
    change [expand_W a] with (map expand_W [a]).
    rewrite (unexpand_expand_W [a] HW).
    apply (unexpand_expand_H [a] HH).
  - apply (unexpand_expand_W [a] HW).
  - apply (unexpand_expand_H [a] HH).
  - reflexivity.
Qed.

End PadCropFacts.

(** ** Inference on the data *)

Section DenoiseData.
Context `{E : Extern}.

(** X11: With a network that returns its input and no noise injection, the
    inference driver returns the image it was given: padding and cropping
    add nothing and lose nothing, for odd and even dimensions alike. *)
Theorem denoise_identity_network (args : Args) (model : module) (img : image)
    (c w h : nat) (world0 : world) :
  (forall x s, fst (forward (m_params model) (m_buffers model)
                      (training model) x s) = x) ->
  add_noise args = false ->
  rect3 c w h img = true -> (0 < c)%nat -> (0 < w)%nat -> (0 < h)%nat ->
  exists input model' world',
    denoise args model img world0 = (inr ([img], input, model'), world').
Proof.
  intros Hid Hnoise Hrect Hc Hw Hh.
  pose proof Hrect as Hrect'. apply rect3_spec in Hrect'.
  unfold denoise.
  rewrite (shape3_rect c w h img Hc Hw Hrect'). cbn [fst snd].
  rewrite odd_dimension.
  set (img1 := if Nat.odd w then expand_W img else img).
  assert (H1 : Rect3 c (even_up w) h img1).
  { unfold img1, even_up. destruct (Nat.odd w); [now apply expand_W_rect | exact Hrect']. }
  assert (Hw1 : (0 < even_up w)%nat) by (unfold even_up; destruct (Nat.odd w); lia).
  rewrite (shape3_rect c (even_up w) h img1 Hc Hw1 H1). cbn [snd].
  rewrite odd_dimension, Hnoise.
  unfold mbind, M_bind, bind, with_no_grad, call_model.
  specialize (Hid [if Nat.odd h then expand_H img1 else img1]
                  (FloatTensor [noise_sigma args])).
  destruct (forward _ _ _ _ _) as [y b]. cbn [fst] in Hid. subst y.
  pose proof (crop_undoes_pad img c w h (Nat.odd w) (Nat.odd h) Hrect Hw Hh) as Hrt.
  cbn zeta in Hrt. unfold img1, ret.
  destruct (Nat.odd w), (Nat.odd h); cbv beta iota zeta; try rewrite Hrt;
    do 3 eexists; reflexivity.
Qed.

End DenoiseData.

(** ** Loading the data set *)

Section LoadFacts.
Context `{E : Extern}.

(** The directory [load_images] reads: the base path without quote
    characters, then the mode and the split. *)
Definition images_dir (train_set gray : bool) (base_path : string) : string :=
  remove_char double_quote (remove_char apostrophe base_path)
  +:+ (if gray then (if train_set then "gray/train/" else "gray/val/")
       else (if train_set then "rgb/train/" else "rgb/val/")).

(** An image of the list is the decoding of the file at the same position. *)
Definition decoded_from (dir : string) (gray : bool) (fn : string)
    (img : image) : Prop :=
  exists raw, cv2_imread (dir +:+ fn) gray = Some raw /\ img = to_chw gray raw.

Lemma load_loop (dir : string) (gray : bool) (fns : list string)
    (acc : list image) (w : world) :
  match fst (for_each fns
               (fun fn images => img ← read_image (dir +:+ fn) gray;
                                 ret (images ++ [img])%list) acc w) with
  | inr imgs => exists new, imgs = (acc ++ new)%list /\
                            Forall2 (decoded_from dir gray) fns new
  | inl e => exists pre fn post,
               fns = (pre ++ fn :: post)%list /\
               Forall (fun fn' => cv2_imread (dir +:+ fn') gray <> None) pre /\
               cv2_imread (dir +:+ fn) gray = None /\
               e = DecodeError (dir +:+ fn)
  end.
Proof.
  revert acc w. induction fns as [| fn fns IH]; intros acc w.
  - cbn. exists []. split; [now rewrite app_nil_r | constructor].
  - cbn [for_each]. unfold mbind at 1, M_bind at 1, bind at 1.
    unfold mbind at 1, M_bind at 1, bind at 1. unfold read_image at 1.
    destruct (cv2_imread (dir +:+ fn) gray) as [raw |] eqn:Hraw; cbn [ret raise fst].
    + specialize (IH (acc ++ [to_chw gray raw])%list w).
      destruct (fst (for_each fns _ _ w)) as [e | imgs].
      * destruct IH as (pre & fn' & post & -> & Hpre & Hnone & ->).
        exists (fn :: pre), fn', post. repeat split; auto.
        constructor; [congruence | exact Hpre].
      * destruct IH as (new & -> & Hnew).
        exists (to_chw gray raw :: new). split; [now rewrite <- app_assoc |].
        constructor; [now exists raw | exact Hnew].
    + exists [], fn, fns. repeat split; auto.
Qed.

(** X12: [load_images] reads the directory of the mode and split and changes
    nothing.  A missing directory is a [StopIteration]; otherwise the result
    has one image per file, in directory order, each the decoding of its
    file, or the call fails at the first file that does not decode. *)
Theorem load_images_in_directory_order (train_set gray : bool)
    (base_path : string) (w : world) :
  let dir := images_dir train_set gray base_path in
  snd (load_images train_set gray base_path w) = w /\
  match os_walk_files dir, fst (load_images train_set gray base_path w) with
  | None, r => r = inl StopIteration
  | Some fns, inr imgs => Forall2 (decoded_from dir gray) fns imgs
  | Some fns, inl e =>
      exists pre fn post,
        fns = (pre ++ fn :: post)%list /\
        Forall (fun fn' => cv2_imread (dir +:+ fn') gray <> None) pre /\
        cv2_imread (dir +:+ fn) gray = None /\
        e = DecodeError (dir +:+ fn)
  end.
Proof.
  cbn zeta. split; [apply load_images_effect_free |].
  assert (Hdir : images_dir train_set gray base_path
                 = remove_char double_quote (remove_char apostrophe base_path)
                   +:+ (if train_set
                        then if gray then "gray/train/" else "rgb/train/"
                        else if gray then "gray/val/" else "rgb/val/")).
  { unfold images_dir. now destruct gray, train_set. }
  unfold load_images. rewrite <- Hdir.
  destruct (os_walk_files _) as [fns |]; [| reflexivity].
  pose proof (load_loop (images_dir train_set gray base_path) gray fns [] w) as Hloop.
  destruct (fst (for_each fns _ _ w)) as [e | imgs]; [exact Hloop |].
  destruct Hloop as (new & -> & Hnew). exact Hnew.
Qed.

End LoadFacts.

(** ** Failing inputs of the inference driver *)

Section TestFailure.
Context `{E : Extern}.

Lemma for_each_app {A S} (l1 l2 : list A) (body : A -> S -> M S) (s : S) (w : world) :
  for_each (l1 ++ l2) body s w
  = (for_each l1 body s ≫= for_each l2 body) w.
Proof.
  revert s w. induction l1 as [| x l1 IH]; intros s w; cbn.
  - reflexivity.
  - unfold mbind, M_bind, bind in *.
    destruct (body x s w) as [[e | s1] w1]; [reflexivity | apply IH].
Qed.

(** X13: Where CUDA is available and the checkpoint loads, a file of the test
    directory that [cv2.imread] cannot decode stops the run with an
    [Exception] naming the test directory; for the files before it the
    denoised images (and, under [--add_noise], the network inputs) have
    been written, for it and the files after it nothing is. *)
Theorem test_stops_at_undecodable (args : Args) (w : world) (d : state_dict)
    (p : params) (b : buffers) (pre post : list string) (bad : string)
    (imgs : list image) :
  cuda_available = true ->
  files w !! checkpoint_path args true = Some d ->
  load_state_dict true d = Some (p, b) ->
  os_listdir (test_path args) = Some (pre ++ bad :: post)%list ->
  Forall2 (decoded_as args true) pre imgs ->
  cv2_imread (os_path_join (test_path args) bad) false = None ->
  exists w' evs,
    test args w
    = (inl (Exception_ ("File " +:+ test_path args +:+ " not found or error")), w') /\
    trace w' = (trace w ++ evs)%list /\
    imwrites evs
    = expected_writes args (combine pre imgs)
        {| m_params := p; m_buffers := b; training := false |} /\
    imwrite_paths evs = flat_map (written_for args) pre.
Proof.
  intros Hcuda Hfile Hload Hdir Hdec Hbad.
  unfold test, mbind, M_bind, bind, torch_load, model_cuda.
  rewrite Hfile, Hload, Hcuda, Hdir. cbn [ret].
  set (w0 := {| files := files w; grad_enabled := grad_enabled w;
                trace := (trace w ++ [EvLoad (checkpoint_path args true)])%list |}).
  rewrite for_each_app. unfold mbind, M_bind, bind.
  destruct (test_loop_run args true pre imgs
              (model_eval {| m_params := p; m_buffers := b; training := true |})
              w0 Hdec)
    as (m1 & w1 & evs & Hrun & Ht & Hw & Hp).
  rewrite Hrun. cbn [for_each]. unfold mbind, M_bind, bind.
  unfold test_image at 1. rewrite Hbad. cbn [raise].
  exists w1, (EvLoad (checkpoint_path args true) :: evs).
  split; [reflexivity |]. split; [| split; [exact Hw | exact Hp]].
  rewrite Ht. unfold w0. cbn. now rewrite <- app_assoc.
Qed.

End TestFailure.

(** ** What training and inference hand to each other *)

Section Handoff.
Context `{E : Extern}.

Lemma triple_of_effect_free {A} (P : bool -> event -> Prop) (X : exn -> Prop)
    (m : M A) (Q : A -> Prop) :
  effect_free m -> triple any_event X m Q -> triple P X m Q.
Proof.
  intros Hm Ht w. destruct (Ht w) as (_ & _ & _ & _ & Hr).
  exists []. rewrite (Hm w), app_nil_r. repeat split; auto.
Qed.

Lemma train_setup_safe args :
  triple any_event not_assertion (train_setup args) (fun _ => True).
Proof.
  unfold train_setup.
  triple_seq; [apply load_images_safe |].
  triple_seq; [apply load_images_safe |].
  triple_seq; [apply images_to_patches_safe |].
  triple_seq; [apply images_to_patches_safe |].
  triple_seq; [apply noise_list_safe |].
  triple_seq; [apply noise_list_safe |].
  destruct (weights_init_kaiming _). now triple_leaf.
Qed.

Lemma train_triple (P : bool -> event -> Prop) args :
  (forall g e tr sg, P g (EvForward (Training e) tr g sg)) ->
  (forall g e sg, P g (EvForward (Validation e) true g sg)) ->
  (forall g e, P g (EvOptimStep e)) ->
  (forall g path, P g (EvSave path)) ->
  triple P not_assertion (train args) (fun _ => True).
Proof.
  intros Hf Hv Ho Hs. unfold train.
  triple_seq.
  { apply triple_of_effect_free;
      [apply train_setup_effect_free | apply train_setup_safe]. }
  triple_seq.
  { unfold train_epochs, epoch_loop. apply triple_for_each; [| exact I].
    intros epoch_idx s _. apply epoch_body_triple; auto. }
  destruct a0 as [model opt]. unfold final_save. now apply triple_torch_save.
Qed.

(** X14: Training never resumes and never infers: it loads no checkpoint, writes
    no image and runs no inference pass, and it leaves the autograd switch
    as it found it. *)
Theorem train_never_loads_or_writes_images (args : Args) (w : world) :
  grad_enabled (snd (train args w)) = grad_enabled w /\
  exists evs,
    trace (snd (train args w)) = (trace w ++ evs)%list /\
    forall ev, In ev evs ->
      match ev with
      | EvLoad _ | EvImwrite _ _ | EvForward Inference _ _ _ => False
      | _ => True
      end.
Proof.
  destruct (train_triple
              (fun _ ev => match ev with
                           | EvLoad _ | EvImwrite _ _
                           | EvForward Inference _ _ _ => False
                           | _ => True
                           end) args) with (w := w)
    as (evs & Ht & Hp & Hg & _); cbn; auto.
  split; [exact Hg |]. exists evs. split; [exact Ht |].
  intros ev Hin. rewrite List.Forall_forall in Hp. exact (Hp _ Hin).
Qed.

(** What [test] does once the checkpoint is read (lines 220-274). *)
Definition test_loaded (args : Args) (d : state_dict) : M unit :=
  match load_state_dict true d with
  | None => raise (RuntimeError "Error(s) in loading state_dict for FFDNet")
  | Some (p, b) =>
      _ ← model_cuda;
      let model := model_eval {| m_params := p; m_buffers := b; training := true |} in
      match os_listdir (test_path args) with
      | None => raise (FileNotFoundError (test_path args))
      | Some images =>
          _ ← for_each images (test_image args true) model;
          ret tt
      end
  end.

Lemma test_unfold args :
  test args = (torch_load (checkpoint_path args true) ≫= test_loaded args).
Proof. reflexivity. Qed.

Lemma test_loaded_extends_trace args d w :
  exists evs, trace (snd (test_loaded args d w)) = (trace w ++ evs)%list.
Proof.
  assert (Ht : triple any_event not_assertion (test_loaded args d) (fun _ => True)).
  { unfold test_loaded.
    destruct (load_state_dict true d) as [[p b] |]; [| now apply triple_raise].
    triple_seq; [unfold model_cuda; destruct cuda_available; now triple_leaf |].
    destruct (os_listdir _); [| now apply triple_raise].
    triple_seq; [| now apply triple_ret].
    apply triple_for_each; [| exact I].
    intros name m _. apply test_image_safe. }
  destruct (Ht w) as (evs & Hevs & _). now exists evs.
Qed.

(** X15: In gray mode the two halves of a run meet: when [train] returns, the
    last thing it did was to save the checkpoint, and [test] started from
    there begins by loading that very file. *)
Theorem gray_train_then_test (args : Args) (w w1 : world) :
  is_gray args = true ->
  train args w = (inr tt, w1) ->
  exists evs0 evs,
    trace w1 = (evs0 ++ [EvSave (checkpoint_path args true)])%list /\
    trace (snd (test args w1))
    = (trace w1 ++ EvLoad (checkpoint_path args true) :: evs)%list.
Proof.
  intros Hgray Htrain.
  unfold train, mbind, M_bind, bind in Htrain.
  destruct (train_setup args w) as [[e | c] wa]; [discriminate |].
  destruct (train_epochs args c wa) as [[e | [model opt]] wb]; [discriminate |].
  unfold final_save, torch_save in Htrain. rewrite Hgray in Htrain.
  injection Htrain as <-.
  exists (trace wb). cbn [trace].
  rewrite test_unfold. unfold mbind, M_bind, bind, torch_load. cbn [files].
  rewrite lookup_insert_eq. cbn [trace grad_enabled].
  destruct (test_loaded_extends_trace args
              (model_state_dict (model_eval model))
              {| files := <[checkpoint_path args true :=
                              model_state_dict (model_eval model)]> (files wb);
                 grad_enabled := grad_enabled wb;
                 trace := ((trace wb ++ [EvSave (checkpoint_path args true)])
                           ++ [EvLoad (checkpoint_path args true)])%list |})
    as (evs & Hevs).
  exists evs. split; [reflexivity |].
  rewrite Hevs. cbn [trace]. now rewrite <- app_assoc.
Qed.

(** X16: Without [--is_train] no checkpoint file is written, whatever else the
    run does. *)
Theorem main_without_train_keeps_checkpoints (args : Args) (w : world) :
  is_train args = false ->
  files (snd (main args w)) = files w.
Proof.
  intros Htrain. revert w. change (keeps_files (main args)).
  unfold main. rewrite Htrain.
  apply keeps_files_bind.
  { destruct (false || is_test args);
      [apply keeps_files_ret | apply keeps_files_raise]. }
  intros _. apply keeps_files_bind.
  { unfold incr_upper. destruct (_ !! _);
      [apply keeps_files_ret | apply keeps_files_raise]. }
  intros tni. apply keeps_files_bind.
  { unfold incr_upper. destruct (_ !! _);
      [apply keeps_files_ret | apply keeps_files_raise]. }
  intros vni. apply keeps_files_bind; [apply keeps_files_ret |].
  intros _. destruct (is_test args); [apply keeps_files_test | apply keeps_files_ret].
Qed.

End Handoff.

(** ** Counting optimizer steps *)

Section StepCount.
Context `{E : Extern}.

Fixpoint optimizer_steps (evs : list event) : nat :=
  match evs with
  | [] => 0
  | EvOptimStep _ :: evs' => S (optimizer_steps evs')
  | _ :: evs' => optimizer_steps evs'
  end.

Lemma optimizer_steps_app evs1 evs2 :
  optimizer_steps (evs1 ++ evs2) = (optimizer_steps evs1 + optimizer_steps evs2)%nat.
Proof.
  induction evs1 as [| ev evs1 IH]; cbn; [reflexivity |].
  destruct ev; cbn; now rewrite IH.
Qed.

Lemma optimizer_steps_none evs :
  Forall (fun ev => match ev with EvOptimStep _ => False | _ => True end) evs ->
  optimizer_steps evs = 0%nat.
Proof.
  induction 1 as [| ev evs Hev _ IH]; cbn; [reflexivity |].
  destruct ev; auto. contradiction.
Qed.

Lemma train_step_counts epoch_idx batch n s w s' w' :
  train_step epoch_idx batch n s w = (inr s', w') ->
  optimizer_steps (trace w') = S (optimizer_steps (trace w)).
Proof.
  destruct s as [[model opt] li]. unfold train_step, mbind, M_bind, bind, lift.
  destruct (int_truediv_255 n) as [e | sigma]; [discriminate |].
  unfold call_model. destruct (forward _ _ _ _ _) as [y b].
  destruct (optimizer_step _ _ _) as [opt' p']. cbn.
  intros [= <- <-]. cbn. rewrite !optimizer_steps_app. cbn. lia.
Qed.

Lemma train_levels_count epoch_idx batch tn : forall s w s' w',
  for_each tn (train_step epoch_idx batch) s w = (inr s', w') ->
  optimizer_steps (trace w') = (optimizer_steps (trace w) + length tn)%nat.
Proof.
  induction tn as [| n tn IH]; intros s w s' w'; cbn.
  - intros [= <- <-]. lia.
  - unfold mbind, M_bind, bind.
    destruct (train_step epoch_idx batch n s w) as [[e | s1] w1] eqn:Hstep;
      [discriminate |].
    intros Hrest. apply IH in Hrest. apply train_step_counts in Hstep. lia.
Qed.

Lemma train_batches_count epoch_idx tn tdl : forall s w s' w',
  for_each tdl (fun batch s => for_each tn (train_step epoch_idx batch) s) s w
  = (inr s', w') ->
  optimizer_steps (trace w')
  = (optimizer_steps (trace w) + length tdl * length tn)%nat.
Proof.
  induction tdl as [| batch tdl IH]; intros s w s' w'; cbn.
  - intros [= <- <-]. lia.
  - unfold mbind, M_bind, bind.
    destruct (for_each tn (train_step epoch_idx batch) s w) as [[e | s1] w1] eqn:Hin;
      [discriminate |].
    intros Hrest. apply IH in Hrest. apply train_levels_count in Hin. lia.
Qed.

Lemma validate_counts vdl vn epoch_idx model w :
  optimizer_steps (trace (snd (validate vdl vn epoch_idx model w)))
  = optimizer_steps (trace w).
Proof.
  destruct (validate_triple vdl vn
              (fun _ ev => match ev with EvOptimStep _ => False | _ => True end)
              epoch_idx model) with (w := w)
    as (evs & Ht & Hp & _); [easy |].
  rewrite Ht, optimizer_steps_app, (optimizer_steps_none evs Hp). lia.
Qed.

Lemma epoch_body_counts args tdl vdl tn vn epoch_idx s w s' w' :
  epoch_body args tdl vdl tn vn epoch_idx s w = (inr s', w') ->
  optimizer_steps (trace w')
  = (optimizer_steps (trace w) + length tdl * length tn)%nat.
Proof.
  destruct s as [model opt]. unfold epoch_body, mbind, M_bind, bind.
  destruct (for_each tdl _ _ w) as [[e | [[m1 o1] li]] w1] eqn:Htrain;
    [discriminate |].
  apply train_batches_count in Htrain.
  unfold div_by_loss_idx. destruct (li =? 0); [discriminate |]. cbn [ret].
  destruct ((epoch_idx + 1) mod 5 =? 0).
  - unfold torch_save.
    set (w2 := {| files := _; grad_enabled := _; trace := _ |}).
    pose proof (validate_counts vdl vn epoch_idx m1 w2) as Hval.
    destruct (validate vdl vn epoch_idx m1 w2) as [[e | m2] w3]; [discriminate |].
    cbn. intros [= <- <-]. cbn [snd] in Hval. rewrite Hval. unfold w2. cbn [trace].
    rewrite optimizer_steps_app. cbn. lia.
  - cbn. intros [= <- <-]. exact Htrain.
Qed.

Lemma epochs_count args tdl vdl tn vn (l : list Z) : forall s w s' w',
  for_each l (epoch_body args tdl vdl tn vn) s w = (inr s', w') ->
  optimizer_steps (trace w')
  = (optimizer_steps (trace w) + length l * (length tdl * length tn))%nat.
Proof.
  induction l as [| idx l IH]; intros s w s' w'; cbn.
  - intros [= <- <-]. lia.
  - unfold mbind, M_bind, bind.
    destruct (epoch_body args tdl vdl tn vn idx s w) as [[e | s1] w1] eqn:Hep;
      [discriminate |].
    intros Hrest. apply IH in Hrest. apply epoch_body_counts in Hep. lia.
Qed.

(** X17: A training run that completes has taken exactly
    epochs x batches x noise levels optimizer steps: one per forward pass of
    the training loop and none during validation. *)
Theorem train_epochs_step_count (args : Args) (c : train_ctx) (w w' : world)
    (r : module * opt_state) :
  train_epochs args c w = (inr r, w') ->
  optimizer_steps (trace w')
  = (optimizer_steps (trace w)
     + Z.to_nat (epoches args)
       * (length (ctx_train_dataloader c) * length (ctx_train_noises c)))%nat.
Proof.
  intros Hrun. unfold train_epochs, epoch_loop in Hrun.
  apply epochs_count in Hrun. rewrite Hrun.
  unfold py_range1. now rewrite length_map, length_seq.
Qed.

End StepCount.

(** ** A second instance: a test directory with a file that does not decode *)

Module DemoBad.

#[local] Instance bad_extern : Extern := {|
  params := Z;
  buffers := Z;
  grads := unit;
  opt_state := Z;
  raw_image := image;
  os_walk_files := fun _ => Some ["a.png"];
  os_listdir := fun _ => Some ["a.png"; "b.txt"; "c.png"];
  cv2_imread := fun path _ =>
    if String.eqb path "./test_data/color.png/b.txt" then None
    else Some Demo.pic;
  to_chw := fun _ raw => raw;
  image_to_patches := fun img _ => [img];
  DataLoader := fun ds _ _ => [ds];
  add_batch_noise := fun t _ => t;
  FFDNet := fun _ => (0, 0);
  weights_init_kaiming := fun d => d;
  load_state_dict := fun _ d => Some d;
  forward := fun _ b tr x _ => (x, if tr then b + 1 else b);
  backward := fun _ _ _ _ _ => tt;
  Adam := fun _ _ => 0;
  optimizer_step := fun o p _ => (o + 1, p + 1);
  FloatTensor := fun l => l;
  cuda_available := true
|}.

Definition w_gray : world :=
  {| files := {["./models/net_gray.pth" := (7, 0)]};
     grad_enabled := true; trace := [] |}.

End DemoBad.

(** ** Instances of the further theorems *)

Module MoreWitnesses.
Import Demo DemoFacts.

Lemma enumerated_noises_inclusive_witness :
  0 < 30 /\
  exists l,
    enumerated_noises [0; 60; 30] w0 = (inr l, w0) /\
    (In 60 l <-> exists k, 0 <= k /\ 60 = 0 + k * 30 /\ 60 <= 60).
Proof.
  split; [lia |]. apply (enumerated_noises_inclusive 0 60 30 60 w0). lia.
Defined.

(** [--train_noise_interval 0 75 0] *)
Definition args_zero_step : Args := {|
  train_path := "./train_data/"; is_gray := false; patch_size := 32;
  train_noise_interval := [0; 76; 0]; val_noise_interval := [0; 61; 30];
  batch_size := 256; epoches := 80; val_epoch := 5;
  learning_rate := 0x1.0624dd2f1a9fcp-10%float; save_checkpoints := 5;
  test_path := "./test_data/color.png"; noise_sigma := 25%float;
  add_noise := false; model_path := "./models/"; use_gpu := false;
  is_train := true; is_test := false; cuda := false
|}.

Lemma train_zero_step_aborts_witness :
  (train_noise_interval args_zero_step !! 2%nat = Some 0 \/
   val_noise_interval args_zero_step !! 2%nat = Some 0) /\
  exists e, train args_zero_step w0 = (inl e, w0).
Proof.
  split; [left; reflexivity |].
  apply (train_zero_step_aborts args_zero_step w0). left. reflexivity.
Defined.

Definition ctx_no_levels : train_ctx :=
  {| ctx_train_dataloader := demo_loader;
     ctx_val_dataloader := demo_loader;
     ctx_train_noises := [];
     ctx_val_noises := [0; 30];
     ctx_model := demo_model;
     ctx_optimizer := 0 |}.

Lemma train_epochs_empty_levels_witness :
  0 < epoches args_e3 /\
  (ctx_train_noises ctx_no_levels = [] \/ ctx_train_dataloader ctx_no_levels = []) /\
  train_epochs args_e3 ctx_no_levels w0 = (inl ZeroDivisionError, w0).
Proof.
  split; [reflexivity |]. split; [left; reflexivity |].
  apply (train_epochs_empty_levels args_e3 ctx_no_levels w0);
    [reflexivity | left; reflexivity].
Defined.

Lemma train_without_epochs_witness :
  epoches args_rgb <= 0 /\
  train_setup args_rgb w0 = (inr Witnesses.ctx_e3, w0) /\
  train args_rgb w0
  = (inr tt,
     {| files := <[checkpoint_path args_rgb (is_gray args_rgb) :=
                     model_state_dict (ctx_model Witnesses.ctx_e3)]> (files w0);
        grad_enabled := grad_enabled w0;
        trace := (trace w0 ++ [EvSave (checkpoint_path args_rgb (is_gray args_rgb))])%list |}).
Proof.
  split; [discriminate |]. split; [vm_compute; reflexivity |].
  apply (train_without_epochs args_rgb Witnesses.ctx_e3 w0 w0);
    [discriminate | vm_compute; reflexivity].
Defined.

Definition after_epoch5 : world :=
  Eval vm_compute in
    snd (epoch_body args_k3 demo_loader demo_loader [0; 15; 30] [0; 30] 4
           (demo_model, 0) w0).

Definition model_after5 : module :=
  {| m_params := 3; m_buffers := 5; training := true |}.

Lemma epoch_multiple_of_5_saves_witness :
  (4 + 1) mod 5 = 0 /\
  epoch_body args_k3 demo_loader demo_loader [0; 15; 30] [0; 30] 4
    (demo_model, 0) w0
  = (inr (model_after5, 3), after_epoch5) /\
  exists b : Z,
    files after_epoch5
    = <[checkpoint_path args_k3 (is_gray args_k3) :=
          ((3, b) : state_dict (E := demo_extern))]> (files w0).
Proof.
  split; [reflexivity |]. split; [vm_compute; reflexivity |].
  apply (epoch_multiple_of_5_saves (E := demo_extern) args_k3 demo_loader demo_loader
           [0; 15; 30] [0; 30] 4 (demo_model, 0) w0 after_epoch5 model_after5 3);
    [reflexivity | vm_compute; reflexivity].
Defined.

Lemma denoise_identity_network_witness :
  (forall x s, fst (forward (m_params demo_model) (m_buffers demo_model)
                      (training demo_model) x s) = x) /\
  add_noise default_args = false /\
  rect3 1 3 3 pic = true /\
  exists input model' world',
    denoise default_args demo_model pic w0 = (inr ([pic], input, model'), world').
Proof.
  split; [intros x s; reflexivity |]. split; [reflexivity |].
  split; [reflexivity |].
  apply (denoise_identity_network default_args demo_model pic 1 3 3 w0);
    [intros x s; reflexivity | reflexivity | reflexivity | lia | lia | lia].
Defined.

Lemma test_stops_at_undecodable_witness :
  cuda_available (Extern := DemoBad.bad_extern) = true /\
  files DemoBad.w_gray !! checkpoint_path default_args true = Some (7, 0) /\
  os_listdir (Extern := DemoBad.bad_extern) (test_path default_args)
    = Some (["a.png"] ++ "b.txt" :: ["c.png"])%list /\
  Forall2 (decoded_as (E := DemoBad.bad_extern) default_args true) ["a.png"] [pic] /\
  cv2_imread (Extern := DemoBad.bad_extern)
    (os_path_join (test_path default_args) "b.txt") false = None /\
  exists w' evs,
    test (E := DemoBad.bad_extern) default_args DemoBad.w_gray
    = (inl (Exception_ ("File " +:+ test_path default_args +:+ " not found or error")), w') /\
    trace w' = (trace DemoBad.w_gray ++ evs)%list /\
    imwrites evs = [("./outputs/a.png.png", [pic])] /\
    imwrite_paths evs = ["./outputs/a.png.png"].
Proof.
  assert (Hdec : Forall2 (decoded_as (E := DemoBad.bad_extern) default_args true)
                   ["a.png"] [pic]).
  { repeat constructor; try discriminate; exists pic; split; reflexivity. }
  split; [reflexivity |]. split; [reflexivity |]. split; [reflexivity |].
  split; [exact Hdec |]. split; [reflexivity |].
  apply (test_stops_at_undecodable (E := DemoBad.bad_extern) default_args
           DemoBad.w_gray (7, 0) 7 0 ["a.png"] ["c.png"] "b.txt" [pic]);
    [reflexivity | reflexivity | reflexivity | reflexivity | exact Hdec | reflexivity].
Defined.

(** [--is_gray --is_train --is_test --epoches 0] *)
Definition args_gray : Args := with_flags default_args true true true 0 5.

Definition after_gray_train : world :=
  Eval vm_compute in snd (train args_gray w0).

Lemma gray_train_then_test_witness :
  is_gray args_gray = true /\
  train args_gray w0 = (inr tt, after_gray_train) /\
  exists evs0 evs,
    trace after_gray_train
    = (evs0 ++ [EvSave (checkpoint_path args_gray true)])%list /\
    trace (snd (test args_gray after_gray_train))
    = (trace after_gray_train ++ EvLoad (checkpoint_path args_gray true) :: evs)%list.
Proof.
  split; [reflexivity |]. split; [vm_compute; reflexivity |].
  apply (gray_train_then_test args_gray w0 after_gray_train);
    [reflexivity | vm_compute; reflexivity].
Defined.

(** [--is_test] alone, with a checkpoint on disk *)
Definition args_test_only : Args := with_flags default_args false false true 80 5.

Lemma main_without_train_keeps_checkpoints_witness :
  is_train args_test_only = false /\
  files (snd (main args_test_only Witnesses.w_gray)) = files Witnesses.w_gray.
Proof.
  split; [reflexivity |].
  apply (main_without_train_keeps_checkpoints args_test_only Witnesses.w_gray).
  reflexivity.
Defined.

Lemma train_epochs_step_count_witness :
  train_epochs args_e3 Witnesses.ctx_e3 w0
  = (inr (Witnesses.model_e3, 15), Witnesses.after_e3) /\
  optimizer_steps (trace Witnesses.after_e3)
  = (optimizer_steps (trace w0)
     + Z.to_nat (epoches args_e3)
       * (length (ctx_train_dataloader Witnesses.ctx_e3)
          * length (ctx_train_noises Witnesses.ctx_e3)))%nat.
Proof.
  split; [vm_compute; reflexivity |].
  apply (train_epochs_step_count args_e3 Witnesses.ctx_e3 w0 Witnesses.after_e3
           (Witnesses.model_e3, 15)).
  vm_compute. reflexivity.
Defined.

End MoreWitnesses.

(** ** Counting checkpoint saves *)

Section SaveCount.
Context `{E : Extern}.

Fixpoint checkpoint_saves (evs : list event) : nat :=
  match evs with
  | [] => 0
  | EvSave _ :: evs' => S (checkpoint_saves evs')
  | _ :: evs' => checkpoint_saves evs'
  end.

Lemma checkpoint_saves_app evs1 evs2 :
  checkpoint_saves (evs1 ++ evs2)
  = (checkpoint_saves evs1 + checkpoint_saves evs2)%nat.
Proof.
  induction evs1 as [| ev evs1 IH]; cbn; [reflexivity |].
  destruct ev; cbn; now rewrite IH.
Qed.

Lemma checkpoint_saves_none evs :
  Forall (fun ev => match ev with EvSave _ => False | _ => True end) evs ->
  checkpoint_saves evs = 0%nat.
Proof.
  induction 1 as [| ev evs Hev _ IH]; cbn; [reflexivity |].
  destruct ev; auto. contradiction.
Qed.

Definition no_save (_ : bool) (ev : event) : Prop :=
  match ev with EvSave _ => False | _ => True end.

Lemma train_part_saves epoch_idx tdl tn s w :
  checkpoint_saves
    (trace (snd (for_each tdl
                   (fun batch s => for_each tn (train_step epoch_idx batch) s)
                   s w)))
  = checkpoint_saves (trace w).
Proof.
  assert (Ht : triple no_save not_assertion
                 (for_each tdl
                    (fun batch s => for_each tn (train_step epoch_idx batch) s) s)
                 (fun _ => True)).
  { apply triple_for_each; [| exact I]. intros batch s0 _.
    apply triple_for_each; [| exact I]. intros n s1 _.
    eapply triple_weaken; [now apply train_step_triple | easy]. }
  destruct (Ht w) as (evs & Hevs & Hp & _).
  rewrite Hevs, checkpoint_saves_app, (checkpoint_saves_none evs Hp). lia.
Qed.

Lemma validate_saves vdl vn epoch_idx model w :
  checkpoint_saves (trace (snd (validate vdl vn epoch_idx model w)))
  = checkpoint_saves (trace w).
Proof.
  destruct (validate_triple vdl vn no_save epoch_idx model) with (w := w)
    as (evs & Ht & Hp & _); [easy |].
  rewrite Ht, checkpoint_saves_app, (checkpoint_saves_none evs Hp). lia.
Qed.

Lemma epoch_body_saves args tdl vdl tn vn epoch_idx s w s' w' :
  epoch_body args tdl vdl tn vn epoch_idx s w = (inr s', w') ->
  checkpoint_saves (trace w')
  = (checkpoint_saves (trace w)
     + (if ((epoch_idx + 1) mod 5 =? 0)%Z then 1 else 0))%nat.
Proof.
  destruct s as [model opt]. unfold epoch_body, mbind, M_bind, bind.
  pose proof (train_part_saves epoch_idx tdl tn (model_train model, opt, 0) w)
    as Htrain.
  destruct (for_each tdl _ _ w) as [[e | [[m1 o1] li]] w1]; [discriminate |].
  cbn [snd] in Htrain.
  unfold div_by_loss_idx. destruct (li =? 0); [discriminate |]. cbn [ret].
  destruct ((epoch_idx + 1) mod 5 =? 0).
  - unfold torch_save.
    set (w2 := {| files := _; grad_enabled := _; trace := _ |}).
    pose proof (validate_saves vdl vn epoch_idx m1 w2) as Hval.
    destruct (validate vdl vn epoch_idx m1 w2) as [[e | m2] w3]; [discriminate |].
    cbn. intros [= <- <-]. cbn [snd] in Hval. rewrite Hval. unfold w2. cbn [trace].
    rewrite checkpoint_saves_app. cbn. lia.
  - cbn. intros [= <- <-]. lia.
Qed.

Lemma epochs_saves args tdl vdl tn vn (l : list Z) : forall s w s' w',
  for_each l (epoch_body args tdl vdl tn vn) s w = (inr s', w') ->
  checkpoint_saves (trace w')
  = (checkpoint_saves (trace w)
     + length (List.filter (fun i => ((i + 1) mod 5 =? 0)%Z) l))%nat.
Proof.
  induction l as [| idx l IH]; intros s w s' w'; cbn [for_each List.filter].
  - intros [= <- <-]. cbn. lia.
  - unfold mbind, M_bind, bind.
    destruct (epoch_body args tdl vdl tn vn idx s w) as [[e | s1] w1] eqn:Hep;
      [discriminate |].
    intros Hrest. apply IH in Hrest. apply epoch_body_saves in Hep.
    destruct ((idx + 1) mod 5 =? 0); cbn [length]; lia.
Qed.

(** Among the first [n] epochs, one in five is a saving epoch. *)
Lemma saving_epochs_count (n : nat) :
  length (List.filter (fun i => (i + 1) mod 5 =? 0) (map Z.of_nat (seq 0 n)))
  = Z.to_nat (Z.of_nat n / 5).
Proof.
  induction n as [| n IH]; [reflexivity |].
  rewrite seq_S, map_app, List.filter_app, length_app, IH. cbn [seq map List.filter Nat.add].
  assert (H0 : 0 <= Z.of_nat n / 5) by (apply Z.div_pos; lia).
  destruct (Z.eqb_spec ((Z.of_nat n + 1) mod 5) 0) as [H5 | H5]; cbn [length].
  - assert (Z.of_nat (S n) / 5 = Z.of_nat n / 5 + 1); [| lia].
    revert H5. rewrite Nat2Z.inj_succ. Z.div_mod_to_equations. lia.
  - assert (Z.of_nat (S n) / 5 = Z.of_nat n / 5); [| lia].
    revert H5. rewrite Nat2Z.inj_succ. Z.div_mod_to_equations. lia.
Qed.

(** X18: A training run of [n] epochs that completes writes the checkpoint
    [n // 5 + 1] times: once after every fifth epoch and once at the end. *)
Theorem train_save_count (args : Args) (w w' : world) :
  train args w = (inr tt, w') ->
  checkpoint_saves (trace w')
  = (checkpoint_saves (trace w) + Z.to_nat (epoches args / 5) + 1)%nat.
Proof.
  intros Hrun. unfold train, mbind, M_bind, bind in Hrun.
  pose proof (train_setup_effect_free args w) as Hsetup.
  destruct (train_setup args w) as [[e | c] wa]; [discriminate |].
  cbn in Hsetup. subst wa.
  destruct (train_epochs args c w) as [[e | [model opt]] wb] eqn:Hep;
    [discriminate |].
  unfold train_epochs, epoch_loop in Hep. apply epochs_saves in Hep.
  unfold final_save, torch_save in Hrun. injection Hrun as <-. cbn [trace].
  rewrite checkpoint_saves_app, Hep. cbn.
  unfold py_range1. rewrite saving_epochs_count.
  destruct (Z.le_gt_cases 0 (epoches args)) as [Hn | Hn].
  - rewrite Z2Nat.id by exact Hn. lia.
  - replace (Z.to_nat (epoches args)) with 0%nat by lia. cbn.
    assert (epoches args / 5 < 0) by (apply Z.div_lt_upper_bound; lia).
    change (Z.to_nat (Z.of_nat 0 / 5)) with 0%nat. lia.
Qed.

End SaveCount.

(** ** Quote characters in the data path *)

Section QuoteFacts.
Context `{E : Extern}.

Lemma strip_quotes_app (a b : string) (q : ascii) :
  q = apostrophe \/ q = double_quote ->
  remove_char double_quote (remove_char apostrophe (a +:+ String q b))
  = remove_char double_quote (remove_char apostrophe (a +:+ b)).
Proof.
  intros Hq. induction a as [| x a IH].
  - destruct Hq as [-> | ->]; reflexivity.
  - change (String x a +:+ String q b) with (String x (a +:+ String q b)).
    change (String x a +:+ b) with (String x (a +:+ b)).
    cbn [remove_char].
    destruct (Ascii.eqb x apostrophe); [exact IH |].
    cbn [remove_char].
    destruct (Ascii.eqb x double_quote); [exact IH | now rewrite IH].
Qed.

(** X19: A single or double quote character anywhere in [--train_path] makes no
    difference to what [load_images] reads. *)
Theorem load_images_ignores_quotes (train_set gray : bool) (a b : string)
    (q : ascii) (w : world) :
  q = apostrophe \/ q = double_quote ->
  load_images train_set gray (a +:+ String q b) w
  = load_images train_set gray (a +:+ b) w.
Proof.
  intros Hq. unfold load_images. now rewrite (strip_quotes_app a b q Hq).
Qed.

End QuoteFacts.

Module CountWitnesses.
Import Demo DemoFacts.

Definition after_k3 : world := Eval vm_compute in snd (train args_k3 w0).

Lemma train_save_count_witness :
  train args_k3 w0 = (inr tt, after_k3) /\
  checkpoint_saves (trace after_k3)
  = (checkpoint_saves (trace w0) + Z.to_nat (epoches args_k3 / 5) + 1)%nat.
Proof.
  split; [vm_compute; reflexivity |].
  apply (train_save_count args_k3 w0 after_k3). vm_compute. reflexivity.
Defined.

Lemma load_images_ignores_quotes_witness :
  (apostrophe = apostrophe \/ apostrophe = double_quote) /\
  load_images true false ("./train" +:+ String apostrophe "_data/") w0
  = load_images true false ("./train" +:+ "_data/") w0.
Proof.
  split; [left; reflexivity |].
  apply (load_images_ignores_quotes true false "./train" "_data/" apostrophe w0).
  left. reflexivity.
Defined.

End CountWitnesses.
